(** * Heat transfer simulation with one-dimensional texture memory

    A shallow embedding of
    [5.About_texture_memory/heat_transfer_simulation_with_texture_memory.cu]:
    the two kernels [maintain_heaters] and [temperature_update], the
    construction of the heater map in [main], and the ping-pong loop of
    [animate_display].

    - C [int] and [unsigned] values are integers of [Z] with the 32-bit
      wrap-around written out (module [Int]);
    - C [float] values are IEEE 754 binary32 numbers, computed with the
      operations of [SpecFloat] at precision 24 and maximal exponent 128
      (module [F32]);
    - device and host buffers are lists of floats, read and written by
      index; an access outside a buffer has no defined behaviour and is
      modelled by [None];
    - a kernel launch runs the kernel once per thread of the launch
      geometry, threading the device memory through the threads; for
      the two kernels and the buffers that [animate_display] gives
      them the order of the threads is shown not to matter;
    - every arithmetic operation of a source expression is rounded on
      its own, as the expression is written. *)

From Stdlib Require Import ZArith Lia Bool.
From Stdlib Require Import Floats.SpecFloat.
From stdpp Require Import base option list list_numbers.

Local Open Scope Z_scope.

(** ** Machine integers *)

Module Int.

(** Arithmetic on [unsigned int] is arithmetic modulo [2^32]. *)
Definition u32 (z : Z) : Z := z mod 2 ^ 32.

(** Conversion of an [unsigned int] to [int] (two's complement). *)
Definition to_int (z : Z) : Z := if z <? 2 ^ 31 then z else z - 2 ^ 32.

(** The [int] that a 32-bit register holds for the integer [z]. *)
Definition wrap (z : Z) : Z := to_int (u32 z).

Definition add (a b : Z) : Z := wrap (a + b).
Definition sub (a b : Z) : Z := wrap (a - b).
Definition mul (a b : Z) : Z := wrap (a * b).

End Int.

(** ** IEEE 754 binary32 *)

Module F32.

Definition prec : Z := 24.
Definition emax : Z := 128.

Definition float : Type := spec_float.

(** Conversion of an integer to [float] (exact for the small constants
    of the program, rounded to nearest even otherwise). *)
Definition of_int (z : Z) : float := binary_normalize prec emax z 0 false.

Definition add : float -> float -> float := SFadd prec emax.
Definition sub : float -> float -> float := SFsub prec emax.
Definition mul : float -> float -> float := SFmul prec emax.
Definition div : float -> float -> float := SFdiv prec emax.

(** The C comparison [a != b]: true on NaN, false on [0 != -0]. *)
Definition neq (a b : float) : bool := negb (SFeqb a b).
(** The C comparison [a == b]. *)
Definition eq (a b : float) : bool := SFeqb a b.

(** A decimal literal [num / den] with the suffix [f]: the binary32
    number nearest to the quotient. *)
Definition literal (num den : Z) : float := div (of_int num) (of_int den).

Definition zero : float := S754_zero false.
Definition infinity : float := S754_infinity false.

(** Every 32-bit pattern decodes to a float that satisfies [valid]. *)
Definition valid (a : float) : bool := valid_binary prec emax a.

Definition is_finite (a : float) : bool :=
  match a with
  | S754_zero _ | S754_finite _ _ _ => true
  | S754_infinity _ | S754_nan => false
  end.

End F32.

Abbreviation float := F32.float.

(** ** The constants of the program *)

Definition DIM : Z := 1024.
Definition MAX_TEMPERATURE : float := F32.literal 1 1.
Definition MIN_TEMPERATURE : float := F32.literal 1 10000.
Definition SPEED : float := F32.literal 2 10.
Definition TIME_STEPS_PER_FRAME : nat := 50.

(** ** Device memory, pointers and textures *)

(** The three device allocations of [main], named by the field of
    [struct Data] that points to them. *)
Inductive ptr : Type := device_heaters | device_input | device_output.

Global Instance ptr_eq_dec : EqDecision ptr.
Proof. solve_decision. Defined.

Record Memory : Type := mkMemory {
  heaters_buf : list float;
  input_buf : list float;
  output_buf : list float
}.

Definition load (m : Memory) (p : ptr) : list float :=
  match p with
  | device_heaters => heaters_buf m
  | device_input => input_buf m
  | device_output => output_buf m
  end.

Definition store (m : Memory) (p : ptr) (l : list float) : Memory :=
  match p with
  | device_heaters => mkMemory l (input_buf m) (output_buf m)
  | device_input => mkMemory (heaters_buf m) l (output_buf m)
  | device_output => mkMemory (heaters_buf m) (input_buf m) l
  end.

(** [a[i]] as an rvalue. *)
Definition array_get (a : list float) (i : Z) : option float :=
  if 0 <=? i then a !! Z.to_nat i else None.

(** [a[i] = v]. *)
Definition array_set (a : list float) (i : Z) (v : float) : option (list float) :=
  if (0 <=? i) && (i <? Z.of_nat (length a))
  then Some (<[Z.to_nat i := v]> a) else None.

(** [p[i] = v] on the device. *)
Definition write (m : Memory) (p : ptr) (i : Z) (v : float) : option Memory :=
  a ← array_set (load m p) i v; Some (store m p a).

(** The texture references of file scope. *)
Inductive texture : Type := texture_heaters | texture_input | texture_output.

(** The bindings made by the three [cudaBindTexture] calls of [main];
    they are never changed afterwards. *)
Definition bound (t : texture) : ptr :=
  match t with
  | texture_heaters => device_heaters
  | texture_input => device_input
  | texture_output => device_output
  end.

Definition tex1Dfetch (m : Memory) (t : texture) (i : Z) : option float :=
  array_get (load m (bound t)) i.

(** ** Launch geometry *)

Record dim3 : Type := Dim3 { dim_x : Z; dim_y : Z }.

(** The built-in variables seen by one thread. *)
Record Thread : Type := mkThread {
  threadIdx : dim3;
  blockIdx : dim3;
  blockDim : dim3;
  gridDim : dim3
}.

(** [body] on every element of [l] in turn, stopping at the first
    undefined step. *)
Fixpoint for_each {I S : Type} (body : I -> S -> option S) (l : list I) (s : S)
  : option S :=
  match l with
  | [] => Some s
  | i :: l' => s' ← body i s; for_each body l' s'
  end.

(** [for (int i = lo; i < hi; i++) body]. *)
Definition for_loop {S : Type} (lo hi : Z) (body : Z -> S -> option S) (s : S)
  : option S :=
  for_each body (seqZ lo (hi - lo)) s.

(** The threads of a launch [<<<grid, block>>>]. *)
Definition threads (grid block : dim3) : list Thread :=
  b_y ← seqZ 0 (dim_y grid);
  b_x ← seqZ 0 (dim_x grid);
  t_y ← seqZ 0 (dim_y block);
  t_x ← seqZ 0 (dim_x block);
  [ mkThread (Dim3 t_x t_y) (Dim3 b_x b_y) block grid ].

(** [kernel<<<grid, block>>>(...)]: every thread runs the kernel on the
    memory left by the threads before it. The two kernels below write
    one cell per thread, each thread its own. *)
Definition launch (grid block : dim3) (kernel : Thread -> Memory -> option Memory)
  (m : Memory) : option Memory :=
  for_each kernel (threads grid block) m.

(** ** The kernels *)

(** [int x = threadIdx.x + blockIdx.x * blockDim.x], computed on
    [unsigned] and converted to [int]. *)
Definition thread_x (t : Thread) : Z :=
  Int.wrap (dim_x (threadIdx t) + dim_x (blockIdx t) * dim_x (blockDim t)).

Definition thread_y (t : Thread) : Z :=
  Int.wrap (dim_y (threadIdx t) + dim_y (blockIdx t) * dim_y (blockDim t)).

(** [int current_idx = x + y * blockDim.x * gridDim.x]. *)
Definition thread_idx (t : Thread) : Z :=
  Int.wrap (thread_x t + thread_y t * dim_x (blockDim t) * dim_x (gridDim t)).

Definition maintain_heaters (p : ptr) (t : Thread) (m : Memory) : option Memory :=
  let current_idx := thread_idx t in
  heat_source ← tex1Dfetch m texture_heaters current_idx;
  if F32.neq heat_source (F32.of_int 0)
  then write m p current_idx heat_source
  else Some m.

(** The four neighbour indices of [temperature_update]; [dim] is the
    value of the macro [DIM]. *)
Definition left_idx (x current_idx : Z) : Z :=
  let left_idx := Int.sub current_idx 1 in
  if x =? 0 then Int.add left_idx 1 else left_idx.

Definition right_idx (dim x current_idx : Z) : Z :=
  let right_idx := Int.add current_idx 1 in
  if x =? dim - 1 then Int.sub right_idx 1 else right_idx.

Definition upper_idx (dim y current_idx : Z) : Z :=
  let upper_idx := Int.sub current_idx dim in
  if y =? 0 then Int.add upper_idx dim else upper_idx.

Definition lower_idx (dim y current_idx : Z) : Z :=
  let lower_idx := Int.add current_idx dim in
  if y =? dim - 1 then Int.sub lower_idx dim else lower_idx.

(** [current + SPEED * (left + right + upper + lower - 4 * current)]. *)
Definition next_val (current left right upper lower : float) : float :=
  let gradient :=
    F32.sub (F32.add (F32.add (F32.add left right) upper) lower)
            (F32.mul (F32.of_int 4) current) in
  F32.add current (F32.mul SPEED gradient).

(** The five fetches of one branch of [if (flag_IO)]. *)
Definition fetch5 (m : Memory) (tex : texture) (c l r u d : Z)
  : option (float * float * float * float * float) :=
  current ← tex1Dfetch m tex c;
  left_val ← tex1Dfetch m tex l;
  right_val ← tex1Dfetch m tex r;
  upper_val ← tex1Dfetch m tex u;
  lower_val ← tex1Dfetch m tex d;
  Some (current, left_val, right_val, upper_val, lower_val).

Definition temperature_update (dim : Z) (p : ptr) (flag_IO : bool)
  (t : Thread) (m : Memory) : option Memory :=
  let x := thread_x t in
  let y := thread_y t in
  let current_idx := thread_idx t in
  let l := left_idx x current_idx in
  let r := right_idx dim x current_idx in
  let u := upper_idx dim y current_idx in
  let d := lower_idx dim y current_idx in
  '(current, left_val, right_val, upper_val, lower_val) ←
    (if flag_IO
     then fetch5 m texture_input current_idx l r u d
     else fetch5 m texture_output current_idx l r u d);
  write m p current_idx (next_val current left_val right_val upper_val lower_val).

(** ** The frame loop of [animate_display] *)

Definition blocks_per_grid (dim : Z) : dim3 := Dim3 (dim ÷ 16) (dim ÷ 16).
Definition threads_per_block : dim3 := Dim3 16 16.

(** The choice of [input_ptr] and [output_ptr] made from [flag_IO]. *)
Definition select_ptrs (flag_IO : bool) : ptr * ptr :=
  if flag_IO then (device_input, device_output)
  else (device_output, device_input).

(** One iteration of the loop body, without the toggle. *)
Definition sub_step (grid block : dim3) (dim : Z) (flag_IO : bool) (m : Memory)
  : option Memory :=
  let '(input_ptr, output_ptr) := select_ptrs flag_IO in
  m1 ← launch grid block (maintain_heaters input_ptr) m;
  launch grid block (temperature_update dim output_ptr flag_IO) m1.

(** [n] iterations of the loop, from the toggle [flag_IO]. *)
Fixpoint animate_loop (dim : Z) (n : nat) (flag_IO : bool) (m : Memory)
  : option (bool * Memory) :=
  match n with
  | O => Some (flag_IO, m)
  | S n' =>
      m' ← sub_step (blocks_per_grid dim) threads_per_block dim flag_IO m;
      animate_loop dim n' (negb flag_IO) m'
  end.

(** One frame: the loop from [flag_IO = true], then the export, which
    hands [data->device_input] to [float_to_color]. The result is the
    exported buffer and the memory after the frame. *)
Definition animate_display (dim : Z) (m : Memory) : option (list float * Memory) :=
  '(_, m') ← animate_loop dim TIME_STEPS_PER_FRAME true m;
  Some (load m' device_input, m').

(** ** The heater map built by [main] *)

(** [cudaMemcpy(p, host, size, cudaMemcpyHostToDevice)]: [size] bytes,
    four to the float, from the start of the host array to the start
    of the device buffer. *)
Definition cudaMemcpy (m : Memory) (p : ptr) (host : list float) (size : Z)
  : option Memory :=
  let n := size ÷ 4 in
  if (0 <=? size) && (Z.rem size 4 =? 0)
     && (n <=? Z.of_nat (length host))
     && (n <=? Z.of_nat (length (load m p)))
  then Some (store m p (take (Z.to_nat n) host ++ drop (Z.to_nat n) (load m p)))
  else None.

(** [(MIN_TEMPERATURE + MAX_TEMPERATURE) / 2]. *)
Definition MID_TEMPERATURE : float :=
  F32.div (F32.add MIN_TEMPERATURE MAX_TEMPERATURE) (F32.of_int 2).

(** The body of the first loop of [main], at the value [i] of its
    counter. *)
Definition heaters_body (dim : Z) (i : Z) (heaters_grid : list float)
  : option (list float) :=
  g ← array_set heaters_grid i F32.zero;
  let x := Z.rem i dim in
  let y := i ÷ dim in
  g ← (if (x >? 300) && (x <? 600) && (y >? 310) && (y <? 601)
       then array_set g i MAX_TEMPERATURE else Some g);
  g ← array_set g (Int.add 100 (Int.mul 100 dim)) MID_TEMPERATURE;
  g ← array_set g (Int.add 100 (Int.mul 700 dim)) MIN_TEMPERATURE;
  g ← array_set g (Int.add 300 (Int.mul 300 dim)) MIN_TEMPERATURE;
  g ← array_set g (Int.add 700 (Int.mul 200 dim)) MIN_TEMPERATURE;
  for_loop 800 900 (λ k,
    for_loop 400 500 (λ j g,
      array_set g (Int.add j (Int.mul k dim)) MIN_TEMPERATURE)) g.

(** The second pass, between the two uploads. *)
Definition heaters_second_pass (dim : Z) (heaters_grid : list float)
  : option (list float) :=
  for_loop 800 dim (λ j,
    for_loop 0 200 (λ i g,
      array_set g (Int.add i (Int.mul j dim)) MAX_TEMPERATURE)) heaters_grid.

(** The part of [main] that fills [device_heaters]. [size] is the value
    of [bitmap.size()], declared in [Common/animate.h], and
    [heaters_grid] the array returned by [new float[bitmap.size()]],
    whose cells hold no defined value yet. *)
Definition main (dim size : Z) (heaters_grid : list float) (m : Memory)
  : option Memory :=
  g ← for_loop 0 (Int.mul dim dim) (heaters_body dim) heaters_grid;
  m ← cudaMemcpy m device_heaters g size;
  g ← heaters_second_pass dim g;
  cudaMemcpy m device_heaters g size.

(** ** The construction rules of the specification *)

(** A rule forces the cells [(x, y)] that it covers to one value. *)
Record rule : Type := mkRule { covers : Z -> Z -> bool; forced : float }.

(** A rule applied to a row-major grid: the cell of index [x + y * dim]
    takes the forced value when the rule covers [(x, y)]. *)
Definition apply_rule (dim : Z) (r : rule) (g : list float) : list float :=
  imap (λ i v,
    if covers r (Z.of_nat i mod dim) (Z.of_nat i / dim) then forced r else v) g.

Definition point_rule (px py : Z) (v : float) : rule :=
  mkRule (λ x y, (x =? px) && (y =? py)) v.

Definition block_rule (x0 x1 y0 y1 : Z) (v : float) : rule :=
  mkRule (λ x y, (x0 <=? x) && (x <? x1) && (y0 <=? y) && (y <? y1)) v.

(** The rules of the construction, in their order. The text of the
    construction gives no coordinates for the four points; they are
    the ones of [main]. *)
Definition rule_rectangle : rule :=
  mkRule (λ x y, (300 <? x) && (x <? 600) && (310 <? y) && (y <? 601))
    MAX_TEMPERATURE.
Definition rule_point_mid : rule := point_rule 100 100 MID_TEMPERATURE.
Definition rule_point_a : rule := point_rule 100 700 MIN_TEMPERATURE.
Definition rule_point_b : rule := point_rule 300 300 MIN_TEMPERATURE.
Definition rule_point_c : rule := point_rule 700 200 MIN_TEMPERATURE.
Definition rule_block_min : rule := block_rule 400 500 800 900 MIN_TEMPERATURE.
Definition rule_block_max (dim : Z) : rule :=
  block_rule 0 200 800 dim MAX_TEMPERATURE.

Definition construction_rules (dim : Z) : list rule :=
  [ rule_rectangle; rule_point_mid; rule_point_a; rule_point_b; rule_point_c;
    rule_block_min; rule_block_max dim ].

(** The rules applied one after the other to the all-zero grid. *)
Definition heater_map_spec (dim : Z) : list float :=
  foldl (λ g r, apply_rule dim r g)
    (replicate (Z.to_nat (dim * dim)) F32.zero) (construction_rules dim).

(** ** Predicates used in the statements *)

(** A grid side that the launch of [animate_display] tiles exactly
    (16 x 16 threads per block, [dim / 16] blocks each way) and whose
    cell indices fit in an [int]. The value [DIM] of the source is one. *)
Definition grid_ok (dim : Z) : Prop :=
  0 < dim /\ dim mod 16 = 0 /\ dim * dim <= 2 ^ 31.

(** Every device buffer holds [dim * dim] floats, as allocated by the
    [cudaMalloc] calls of [main]. *)
Definition sized (dim : Z) (m : Memory) : Prop :=
  forall p, Z.of_nat (length (load m p)) = dim * dim.

(** The value of a cell, for a buffer that has it. *)
Definition cell (a : list float) (i : Z) : float :=
  default F32.zero (array_get a i).

(** The value that [temperature_update] computes for the cell [(x, y)]
    from the buffer [a]. *)
Definition stencil (dim : Z) (a : list float) (x y : Z) : float :=
  let idx := x + y * dim in
  next_val (cell a idx) (cell a (left_idx x idx)) (cell a (right_idx dim x idx))
    (cell a (upper_idx dim y idx)) (cell a (lower_idx dim y idx)).

(** The value that [maintain_heaters] leaves in a cell holding [old]
    under the heater value [h]. *)
Definition overlay (h old : float) : float :=
  if F32.neq h (F32.of_int 0) then h else old.

(** The value of a cell after a rule, from its value before. *)
Definition rule_cell (dim : Z) (r : rule) (i : Z) (old : float) : float :=
  if covers r (i mod dim) (i / dim) then forced r else old.

(** The rules that an iteration of the first loop of [main] replays
    after it has set its own cell. *)
Definition replayed (dim i : Z) (old : float) : float :=
  rule_cell dim rule_block_min i
    (rule_cell dim rule_point_c i
       (rule_cell dim rule_point_b i
          (rule_cell dim rule_point_a i
             (rule_cell dim rule_point_mid i old)))).

(** The value of the cell [j] after the iteration [i] of the first
    loop, from its value before. *)
Definition body_cell (dim i j : Z) (old : float) : float :=
  replayed dim j (if j =? i then rule_cell dim rule_rectangle j F32.zero else old).

(** The value of the cell [j] after the first [n] iterations of the
    first loop, from the value the fresh array had there. *)
Definition loop_cell (dim n j : Z) (old : float) : float :=
  if 0 <? n
  then replayed dim j (if j <? n then rule_cell dim rule_rectangle j F32.zero else old)
  else old.

(** What the memory [m'] may look like between two threads of a launch
    that started on [m] and whose threads write the cells of [p], the
    thread of the cell [i] writing [v i]: only the buffer [p] has
    changed, and each of its cells is either as before or already
    written. *)
Definition pass_inv (p : ptr) (v : Z -> float) (m m' : Memory) : Prop :=
  (forall q, q <> p -> load m' q = load m q) /\
  length (load m' p) = length (load m p) /\
  (forall i, cell (load m' p) i = cell (load m p) i \/ cell (load m' p) i = v i).

(** ** Rounding to nearest, ties to even *)

(** [n / 2] and [n / 4] rounded to the nearest integer, to the even one
    on a tie. *)
Definition rne1 (n : Z) : Z :=
  if n mod 2 =? 0 then n / 2
  else if Z.even (n / 2) then n / 2 else n / 2 + 1.

Definition rne2 (n : Z) : Z :=
  if n mod 4 <? 2 then n / 4
  else if n mod 4 =? 2 then (if Z.even (n / 4) then n / 4 else n / 4 + 1)
  else n / 4 + 1.

(** A finite result, unless its exponent is beyond the largest one of
    binary32. *)
Definition finite_or_inf (s : bool) (m : positive) (e : Z) : float :=
  if e <=? 104 then S754_finite s m e else S754_infinity s.

(** A number added to itself four times, as the stencil sums four
    equal neighbours. *)
Definition add4 (c : float) : float :=
  F32.add (F32.add (F32.add c c) c) c.

(** ** Example inputs *)

(** The 4 x 4 grid of the worked example: no heater, the value 1 in
    the cell (0, 0) of the input buffer and 0 elsewhere. *)
Definition example_4x4 : Memory :=
  mkMemory (replicate 16 F32.zero)
    (F32.of_int 1 :: replicate 15 F32.zero)
    (replicate 16 F32.zero).

(** A memory of three buffers of [n] cells, all holding [v]. *)
Definition uniform (n : nat) (v : float) : Memory :=
  mkMemory (replicate n v) (replicate n v) (replicate n v).

(** * Properties *)

(** ** The constants as binary32 numbers *)

Example MAX_TEMPERATURE_bits : MAX_TEMPERATURE = S754_finite false 8388608 (-23).
Proof. reflexivity. Qed.

Example MIN_TEMPERATURE_bits : MIN_TEMPERATURE = S754_finite false 13743895 (-37).
Proof. reflexivity. Qed.

Example SPEED_bits : SPEED = S754_finite false 13421773 (-26).
Proof. reflexivity. Qed.

Example MID_TEMPERATURE_bits : MID_TEMPERATURE = S754_finite false 8389447 (-24).
Proof. reflexivity. Qed.

Example of_int_0 : F32.of_int 0 = F32.zero.
Proof. reflexivity. Qed.

(** ** Machine integers *)

Module IntFacts.
Import Int.

Lemma wrap_small z : - 2 ^ 31 <= z < 2 ^ 31 -> wrap z = z.
Proof.
  intros Hz. unfold wrap, u32, to_int.
  destruct (Z.ltb_spec (z mod 2 ^ 32) (2 ^ 31)) as [Hlt | Hge].
  - destruct (Z.le_gt_cases 0 z) as [Hpos | Hneg].
    + apply Z.mod_small; lia.
    + exfalso. replace z with (z + 2 ^ 32 + (-1) * 2 ^ 32) in Hlt by ring.
      rewrite Z_mod_plus_full, Z.mod_small in Hlt; lia.
  - destruct (Z.le_gt_cases 0 z) as [Hpos | Hneg].
    + rewrite Z.mod_small in Hge; lia.
    + replace z with (z + 2 ^ 32 + (-1) * 2 ^ 32) at 1 by ring.
      rewrite Z_mod_plus_full, Z.mod_small; lia.
Qed.

Lemma u32_to_int z : u32 (to_int (u32 z)) = u32 z.
Proof.
  unfold to_int, u32. destruct (_ <? _).
  - apply Z.mod_mod; lia.
  - replace (z mod 2 ^ 32 - 2 ^ 32) with (z mod 2 ^ 32 + (-1) * 2 ^ 32) by ring.
    rewrite Z_mod_plus_full. apply Z.mod_mod; lia.
Qed.

(** A wrapped operand may be replaced by the integer it stands for. *)
Lemma wrap_add_l a b : wrap (wrap a + b) = wrap (a + b).
Proof.
  unfold wrap. f_equal.
  transitivity ((u32 (to_int (u32 a)) + b mod 2 ^ 32) mod 2 ^ 32).
  - unfold u32. apply Z.add_mod; lia.
  - rewrite u32_to_int. unfold u32. symmetry. apply Z.add_mod; lia.
Qed.

Lemma add_sub_cancel a b : - 2 ^ 31 <= a < 2 ^ 31 -> add (sub a b) b = a.
Proof.
  intros Ha. unfold add, sub. rewrite wrap_add_l.
  replace (a - b + b) with a by ring. now apply wrap_small.
Qed.

Lemma sub_add_cancel a b : - 2 ^ 31 <= a < 2 ^ 31 -> sub (add a b) b = a.
Proof.
  intros Ha. unfold add, sub.
  replace (wrap (a + b) - b) with (wrap (a + b) + - b) by ring.
  rewrite wrap_add_l. replace (a + b + - b) with a by ring.
  now apply wrap_small.
Qed.

End IntFacts.

(** ** Neighbour indices *)

Section Indices.
Import Int IntFacts.
Variable dim : Z.
Hypothesis dim_int : dim * dim <= 2 ^ 31.
Variables x y : Z.
Hypothesis x_range : 0 <= x < dim.
Hypothesis y_range : 0 <= y < dim.

Lemma idx_range : 0 <= x + y * dim < dim * dim.
Proof. nia. Qed.

Lemma left_idx_eq :
  left_idx x (x + y * dim) = if x =? 0 then x + y * dim else x + y * dim - 1.
Proof.
  pose proof idx_range. unfold left_idx.
  destruct (x =? 0); [apply add_sub_cancel | apply wrap_small]; lia.
Qed.

Lemma right_idx_eq :
  right_idx dim x (x + y * dim) =
  if x =? dim - 1 then x + y * dim else x + y * dim + 1.
Proof.
  pose proof idx_range. unfold right_idx.
  destruct (Z.eqb_spec x (dim - 1)); [apply sub_add_cancel | apply wrap_small]; nia.
Qed.

Lemma upper_idx_eq :
  upper_idx dim y (x + y * dim) =
  if y =? 0 then x + y * dim else x + y * dim - dim.
Proof.
  pose proof idx_range. unfold upper_idx.
  destruct (Z.eqb_spec y 0); [apply add_sub_cancel | apply wrap_small]; nia.
Qed.

Lemma lower_idx_eq :
  lower_idx dim y (x + y * dim) =
  if y =? dim - 1 then x + y * dim else x + y * dim + dim.
Proof.
  pose proof idx_range. unfold lower_idx.
  destruct (Z.eqb_spec y (dim - 1)); [apply sub_add_cancel | apply wrap_small]; nia.
Qed.

Lemma left_idx_range : 0 <= left_idx x (x + y * dim) < dim * dim.
Proof. rewrite left_idx_eq. destruct (Z.eqb_spec x 0); nia. Qed.

Lemma right_idx_range : 0 <= right_idx dim x (x + y * dim) < dim * dim.
Proof. rewrite right_idx_eq. destruct (Z.eqb_spec x (dim - 1)); nia. Qed.

Lemma upper_idx_range : 0 <= upper_idx dim y (x + y * dim) < dim * dim.
Proof. rewrite upper_idx_eq. destruct (Z.eqb_spec y 0); nia. Qed.

Lemma lower_idx_range : 0 <= lower_idx dim y (x + y * dim) < dim * dim.
Proof. rewrite lower_idx_eq. destruct (Z.eqb_spec y (dim - 1)); nia. Qed.

End Indices.

(** ** Buffers *)

Lemma array_get_Some (a : list float) i :
  0 <= i < Z.of_nat (length a) -> array_get a i = Some (cell a i).
Proof.
  intros Hi. unfold cell, array_get.
  destruct (Z.leb_spec 0 i); [| lia].
  destruct (lookup_lt_is_Some_2 a (Z.to_nat i)) as [v Hv]; [lia |].
  now rewrite Hv.
Qed.

Lemma array_get_inv (a : list float) i v :
  array_get a i = Some v -> 0 <= i < Z.of_nat (length a) /\ cell a i = v.
Proof.
  unfold cell, array_get. destruct (Z.leb_spec 0 i); [| discriminate].
  intros Hv. rewrite Hv. split; [| reflexivity].
  apply lookup_lt_Some in Hv. lia.
Qed.

Lemma array_set_Some (a : list float) i v :
  0 <= i < Z.of_nat (length a) ->
  array_set a i v = Some (<[Z.to_nat i := v]> a).
Proof.
  intros Hi. unfold array_set.
  destruct (Z.leb_spec 0 i); [| lia].
  destruct (Z.ltb_spec i (Z.of_nat (length a))); [reflexivity | lia].
Qed.

Lemma array_set_inv (a a' : list float) i v :
  array_set a i v = Some a' ->
  0 <= i < Z.of_nat (length a) /\ a' = <[Z.to_nat i := v]> a.
Proof.
  unfold array_set.
  destruct (Z.leb_spec 0 i); [| discriminate].
  destruct (Z.ltb_spec i (Z.of_nat (length a))); [| discriminate].
  intros [= <-]. split; [lia | reflexivity].
Qed.

Lemma cell_insert_eq (a : list float) i v :
  0 <= i < Z.of_nat (length a) -> cell (<[Z.to_nat i := v]> a) i = v.
Proof.
  intros Hi. unfold cell, array_get. destruct (Z.leb_spec 0 i); [| lia].
  rewrite list_lookup_insert_eq by lia. reflexivity.
Qed.

Lemma cell_insert_ne (a : list float) i j v :
  0 <= i -> i <> j -> cell (<[Z.to_nat i := v]> a) j = cell a j.
Proof.
  intros Hi Hne. unfold cell, array_get.
  destruct (Z.leb_spec 0 j); [| reflexivity].
  rewrite list_lookup_insert_ne by lia. reflexivity.
Qed.

Lemma insert_cell_id (a : list float) i :
  0 <= i < Z.of_nat (length a) -> <[Z.to_nat i := cell a i]> a = a.
Proof.
  intros Hi. apply list_insert_id.
  pose proof (array_get_Some a i Hi) as H. unfold array_get in H.
  destruct (Z.leb_spec 0 i); [exact H | lia].
Qed.

(** Two buffers of one length with the same cells are the same. *)
Lemma cells_eq (a b : list float) :
  length a = length b ->
  (forall i, 0 <= i < Z.of_nat (length a) -> cell a i = cell b i) ->
  a = b.
Proof.
  intros Hlen Hcell. apply list_eq. intros n.
  destruct (Nat.lt_ge_cases n (length a)) as [Hlt | Hge].
  - pose proof (Hcell (Z.of_nat n) ltac:(lia)) as Hn.
    pose proof (array_get_Some a (Z.of_nat n) ltac:(lia)) as Ha.
    pose proof (array_get_Some b (Z.of_nat n) ltac:(lia)) as Hb.
    unfold array_get in Ha, Hb.
    destruct (Z.leb_spec 0 (Z.of_nat n)); [| lia].
    rewrite Nat2Z.id in Ha, Hb. congruence.
  - rewrite !lookup_ge_None_2 by lia. reflexivity.
Qed.

Lemma load_store_eq m p l : load (store m p l) p = l.
Proof. now destruct p. Qed.

Lemma load_store_ne m p q l : q <> p -> load (store m p l) q = load m q.
Proof. now destruct p, q. Qed.

Lemma store_load m p : store m p (load m p) = m.
Proof. now destruct m, p. Qed.

Lemma memory_eq m1 m2 : (forall p, load m1 p = load m2 p) -> m1 = m2.
Proof.
  intros H. destruct m1, m2.
  pose proof (H device_heaters). pose proof (H device_input).
  pose proof (H device_output). simpl in *. congruence.
Qed.

(** ** Threads of a launch *)

Lemma elem_of_threads grid block t :
  t ∈ threads grid block <->
  exists b_x b_y t_x t_y,
    0 <= b_x < dim_x grid /\ 0 <= b_y < dim_y grid /\
    0 <= t_x < dim_x block /\ 0 <= t_y < dim_y block /\
    t = mkThread (Dim3 t_x t_y) (Dim3 b_x b_y) block grid.
Proof.
  unfold threads. split.
  - intros H.
    apply list_elem_of_bind in H as (b_y & H & Hby%elem_of_seqZ).
    apply list_elem_of_bind in H as (b_x & H & Hbx%elem_of_seqZ).
    apply list_elem_of_bind in H as (t_y & H & Hty%elem_of_seqZ).
    apply list_elem_of_bind in H as (t_x & H & Htx%elem_of_seqZ).
    apply list_elem_of_singleton in H.
    exists b_x, b_y, t_x, t_y. repeat split; try lia. exact H.
  - intros (b_x & b_y & t_x & t_y & Hbx & Hby & Htx & Hty & ->).
    apply list_elem_of_bind. exists b_y. split; [| apply elem_of_seqZ; lia].
    apply list_elem_of_bind. exists b_x. split; [| apply elem_of_seqZ; lia].
    apply list_elem_of_bind. exists t_y. split; [| apply elem_of_seqZ; lia].
    apply list_elem_of_bind. exists t_x. split; [| apply elem_of_seqZ; lia].
    apply list_elem_of_singleton. reflexivity.
Qed.

Section Geometry.
Import Int IntFacts.
Variable dim : Z.
Hypothesis dim_ok : grid_ok dim.

Lemma dim_tiles : dim = 16 * (dim ÷ 16) /\ 0 < dim < 2 ^ 16.
Proof.
  destruct dim_ok as (Hpos & Hmod & Hsq).
  rewrite Z.quot_div_nonneg by lia. split; [| nia].
  pose proof (Z.div_mod dim 16 ltac:(lia)). lia.
Qed.

(** The threads of the launch of [animate_display] sit on the cells
    of the grid, at the row-major index of their cell. *)
Lemma thread_coords t :
  t ∈ threads (blocks_per_grid dim) threads_per_block ->
  0 <= thread_x t < dim /\ 0 <= thread_y t < dim /\
  thread_idx t = thread_x t + thread_y t * dim.
Proof.
  destruct dim_tiles as [Htile Hdim]. destruct dim_ok as (_ & _ & Hsq).
  intros (b_x & b_y & t_x & t_y & Hbx & Hby & Htx & Hty & ->)%elem_of_threads.
  simpl in Hbx, Hby, Htx, Hty.
  unfold thread_idx, thread_x, thread_y. simpl.
  rewrite (wrap_small (t_x + b_x * 16)) by lia.
  rewrite (wrap_small (t_y + b_y * 16)) by lia.
  replace ((t_y + b_y * 16) * 16 * (dim ÷ 16)) with ((t_y + b_y * 16) * dim) by lia.
  rewrite wrap_small by nia. lia.
Qed.

(** Every cell of the grid has its thread. *)
Lemma thread_of_cell x y :
  0 <= x < dim -> 0 <= y < dim ->
  exists t, t ∈ threads (blocks_per_grid dim) threads_per_block /\
            thread_x t = x /\ thread_y t = y.
Proof.
  destruct dim_tiles as [Htile Hdim]. intros Hx Hy.
  exists (mkThread (Dim3 (x mod 16) (y mod 16)) (Dim3 (x / 16) (y / 16))
            threads_per_block (blocks_per_grid dim)).
  pose proof (Z.div_mod x 16 ltac:(lia)). pose proof (Z.mod_pos_bound x 16 ltac:(lia)).
  pose proof (Z.div_mod y 16 ltac:(lia)). pose proof (Z.mod_pos_bound y 16 ltac:(lia)).
  pose proof (Z.div_pos x 16). pose proof (Z.div_pos y 16).
  split; [| split].
  - apply elem_of_threads. exists (x / 16), (y / 16), (x mod 16), (y mod 16).
    simpl. repeat split; try lia.
  - unfold thread_x. simpl. rewrite wrap_small by lia. lia.
  - unfold thread_y. simpl. rewrite wrap_small by lia. lia.
Qed.

Lemma thread_of_index i :
  0 <= i < dim * dim ->
  exists t, t ∈ threads (blocks_per_grid dim) threads_per_block /\
            thread_x t = i mod dim /\ thread_y t = i / dim /\ thread_idx t = i.
Proof.
  destruct dim_tiles as [Htile Hdim]. intros Hi.
  pose proof (Z.div_mod i dim ltac:(lia)). pose proof (Z.mod_pos_bound i dim ltac:(lia)).
  assert (0 <= i / dim < dim).
  { split; [apply Z.div_pos; lia | apply Z.div_lt_upper_bound; lia]. }
  destruct (thread_of_cell (i mod dim) (i / dim)) as (t & Ht & Hx & Hy); [lia .. |].
  exists t. repeat split; try assumption.
  destruct (thread_coords t Ht) as (_ & _ & ->). rewrite Hx, Hy. lia.
Qed.

End Geometry.

(** ** One thread of a kernel *)

Lemma maintain_heaters_thread p t m :
  0 <= thread_idx t < Z.of_nat (length (load m device_heaters)) ->
  0 <= thread_idx t < Z.of_nat (length (load m p)) ->
  maintain_heaters p t m =
  Some (store m p
          (<[Z.to_nat (thread_idx t) :=
               overlay (cell (load m device_heaters) (thread_idx t))
                       (cell (load m p) (thread_idx t))]> (load m p))).
Proof.
  intros Hh Hp. unfold maintain_heaters, tex1Dfetch. simpl bound.
  rewrite array_get_Some by assumption. simpl. unfold overlay.
  destruct (F32.neq _ _).
  - unfold write. rewrite array_set_Some by assumption. reflexivity.
  - rewrite insert_cell_id by assumption. now rewrite store_load.
Qed.

Lemma temperature_update_thread dim p flag_IO t m :
  dim * dim <= 2 ^ 31 ->
  0 <= thread_x t < dim -> 0 <= thread_y t < dim ->
  thread_idx t = thread_x t + thread_y t * dim ->
  Z.of_nat (length (load m (fst (select_ptrs flag_IO)))) = dim * dim ->
  Z.of_nat (length (load m p)) = dim * dim ->
  temperature_update dim p flag_IO t m =
  Some (store m p
          (<[Z.to_nat (thread_idx t) :=
               stencil dim (load m (fst (select_ptrs flag_IO)))
                 (thread_x t) (thread_y t)]> (load m p))).
Proof.
  intros Hsq Hx Hy Hidx Hsrc Hp. unfold temperature_update. rewrite Hidx.
  pose proof (idx_range dim Hsq _ _ Hx Hy).
  pose proof (left_idx_range dim Hsq _ _ Hx Hy).
  pose proof (right_idx_range dim Hsq _ _ Hx Hy).
  pose proof (upper_idx_range dim Hsq _ _ Hx Hy).
  pose proof (lower_idx_range dim Hsq _ _ Hx Hy).
  destruct flag_IO; cbn [select_ptrs fst] in *; unfold fetch5, tex1Dfetch;
    cbn [bound]; rewrite !array_get_Some by lia; cbn [mbind option_bind];
    unfold write; rewrite array_set_Some by lia; reflexivity.
Qed.

(** ** A launch whose threads each write their own cell *)

Section Pass.
Variable kernel : Thread -> Memory -> option Memory.
Variable p : ptr.
(** The value that the thread of a cell writes. *)
Variable v : Z -> float.
Variable m : Memory.

Lemma pass_inv_start : pass_inv p v m m.
Proof. repeat split; auto. Qed.

Lemma pass_inv_write m' i :
  pass_inv p v m m' -> 0 <= i < Z.of_nat (length (load m p)) ->
  pass_inv p v m (store m' p (<[Z.to_nat i := v i]> (load m' p))).
Proof.
  intros (Hq & Hlen & Hcells) Hi. split; [| split].
  - intros q Hne. rewrite load_store_ne by assumption. now apply Hq.
  - rewrite load_store_eq, length_insert. exact Hlen.
  - intros j. rewrite load_store_eq. destruct (Z.eq_dec i j) as [<- | Hne].
    + right. apply cell_insert_eq. lia.
    + rewrite cell_insert_ne by lia. apply Hcells.
Qed.

Lemma for_each_cells (ts : list Thread) :
  (forall t, t ∈ ts -> 0 <= thread_idx t < Z.of_nat (length (load m p))) ->
  (forall t m', t ∈ ts -> pass_inv p v m m' ->
     kernel t m' =
     Some (store m' p (<[Z.to_nat (thread_idx t) := v (thread_idx t)]> (load m' p)))) ->
  forall m', pass_inv p v m m' ->
  exists mf, for_each kernel ts m' = Some mf /\ pass_inv p v m mf /\
    (forall i, cell (load m' p) i = v i -> cell (load mf p) i = v i) /\
    (forall t, t ∈ ts -> cell (load mf p) (thread_idx t) = v (thread_idx t)) /\
    (forall i, (forall t, t ∈ ts -> thread_idx t <> i) ->
               cell (load mf p) i = cell (load m' p) i).
Proof.
  induction ts as [| t ts IH]; intros Hrange Hkernel m' Hinv.
  - exists m'. simpl. repeat split; try apply Hinv; auto.
    intros t Ht. inversion Ht.
  - simpl. rewrite Hkernel by (assumption || left).
    set (m1 := store m' p _). simpl.
    assert (Hi : 0 <= thread_idx t < Z.of_nat (length (load m p)))
      by (apply Hrange; left).
    assert (Hinv1 : pass_inv p v m m1) by (now apply pass_inv_write).
    destruct (IH (λ t' Ht', Hrange t' (list_elem_of_further _ _ _ Ht'))
                 (λ t' m'' Ht', Hkernel t' m'' (list_elem_of_further _ _ _ Ht'))
                 m1 Hinv1) as (mf & Hrun & Hinvf & Hkeep & Hwritten & Hrest).
    assert (Hlen : length (load m' p) = length (load m p)) by apply Hinv.
    assert (Hhead : cell (load m1 p) (thread_idx t) = v (thread_idx t)).
    { unfold m1. rewrite load_store_eq. apply cell_insert_eq. lia. }
    exists mf. split; [exact Hrun |]. split; [exact Hinvf |].
    split; [| split].
    + intros i Hvi. apply Hkeep. unfold m1. rewrite load_store_eq.
      destruct (Z.eq_dec (thread_idx t) i) as [<- | Hne];
        [apply cell_insert_eq; lia | rewrite cell_insert_ne by lia; exact Hvi].
    + intros t' [-> | Ht']%elem_of_cons; [now apply Hkeep | now apply Hwritten].
    + intros i Hnone. rewrite Hrest.
      * unfold m1. rewrite load_store_eq. apply cell_insert_ne; [lia |].
        apply Hnone. left.
      * intros t' Ht'. apply Hnone. now right.
Qed.

End Pass.

(** ** The two passes of a sub-step *)

Lemma overlay_overlay h old : overlay h (overlay h old) = overlay h old.
Proof. unfold overlay. now destruct (F32.neq _ _). Qed.

Lemma cell_of_coords dim x y :
  0 <= x < dim -> (x + y * dim) mod dim = x /\ (x + y * dim) / dim = y.
Proof.
  intros Hx. split.
  - rewrite Z_mod_plus_full. apply Z.mod_small; lia.
  - rewrite Z.div_add by lia. rewrite Z.div_small by lia. lia.
Qed.

Section Passes.
Variable dim : Z.
Hypothesis dim_ok : grid_ok dim.
Variable m : Memory.
Hypothesis m_sized : sized dim m.

Let grid := blocks_per_grid dim.
Let block := threads_per_block.

Lemma sized_pass_inv p v m' : pass_inv p v m m' -> sized dim m'.
Proof.
  intros (Hq & Hlen & _) q. destruct (decide (q = p)) as [-> | Hne].
  - rewrite Hlen. apply m_sized.
  - rewrite Hq by assumption. apply m_sized.
Qed.

Lemma thread_idx_range t :
  t ∈ threads grid block -> 0 <= thread_idx t < dim * dim.
Proof.
  intros Ht. destruct (thread_coords dim dim_ok t Ht) as (Hx & Hy & ->).
  destruct dim_ok as (_ & _ & Hsq). now apply idx_range.
Qed.

(** The threads of the launch, in any order. *)
Variable ts : list Thread.
Hypothesis ts_all : forall t, t ∈ ts <-> t ∈ threads grid block.

(** The heater kernel run by every thread, in any order: every cell of
    the target takes the overlay of its heater value; nothing else
    changes. *)
Lemma maintain_heaters_threads p :
  exists m',
    for_each (maintain_heaters p) ts m = Some m' /\
    sized dim m' /\
    (forall q, q <> p -> load m' q = load m q) /\
    (forall i, 0 <= i < dim * dim ->
       cell (load m' p) i =
       overlay (cell (load m device_heaters) i) (cell (load m p) i)).
Proof.
  set (v := λ i, overlay (cell (load m device_heaters) i) (cell (load m p) i)).
  destruct (for_each_cells (maintain_heaters p) p v m ts)
    with (m' := m) as (mf & Hrun & Hinv & _ & Hwritten & _).
  - intros t Ht%ts_all. rewrite m_sized. now apply thread_idx_range.
  - intros t m' Ht%ts_all Hinv. pose proof (sized_pass_inv _ _ _ Hinv) as Hsized.
    pose proof (thread_idx_range t Ht) as Hi.
    rewrite maintain_heaters_thread by (rewrite Hsized; exact Hi).
    do 3 f_equal. destruct Hinv as (Hq & _ & Hcells).
    assert (Hh : cell (load m' device_heaters) (thread_idx t) =
                 cell (load m device_heaters) (thread_idx t)).
    { destruct (decide (device_heaters = p)) as [<- | Hne].
      - destruct (Hcells (thread_idx t)) as [-> | ->]; [reflexivity |].
        unfold v, overlay. now destruct (F32.neq _ _).
      - now rewrite Hq. }
    rewrite Hh. destruct (Hcells (thread_idx t)) as [-> | ->]; [reflexivity |].
    apply overlay_overlay.
  - apply pass_inv_start.
  - exists mf. split; [exact Hrun |]. split; [now apply (sized_pass_inv p v) |].
    split; [apply Hinv |]. intros i Hi.
    destruct (thread_of_index dim dim_ok i Hi) as (t & Ht%ts_all & _ & _ & <-).
    now apply Hwritten.
Qed.

(** The stencil kernel run by every thread, in any order, with the
    buffers as [animate_display] pairs them: every cell of the output
    takes the stencil value of the input; nothing else changes. *)
Lemma temperature_update_threads flag_IO :
  exists m',
    for_each (temperature_update dim (snd (select_ptrs flag_IO)) flag_IO) ts m
    = Some m' /\
    sized dim m' /\
    (forall q, q <> snd (select_ptrs flag_IO) -> load m' q = load m q) /\
    (forall x y, 0 <= x < dim -> 0 <= y < dim ->
       cell (load m' (snd (select_ptrs flag_IO))) (x + y * dim) =
       stencil dim (load m (fst (select_ptrs flag_IO))) x y).
Proof.
  set (inp := fst (select_ptrs flag_IO)). set (out := snd (select_ptrs flag_IO)).
  assert (Hio : inp <> out) by (now destruct flag_IO).
  set (v := λ i, stencil dim (load m inp) (i mod dim) (i / dim)).
  destruct (for_each_cells (temperature_update dim out flag_IO) out v m ts)
    with (m' := m) as (mf & Hrun & Hinv & _ & Hwritten & _).
  - intros t Ht%ts_all. rewrite m_sized. now apply thread_idx_range.
  - intros t m' Ht%ts_all Hinv. pose proof (sized_pass_inv _ _ _ Hinv) as Hsized.
    destruct (thread_coords dim dim_ok t Ht) as (Hx & Hy & Hidx).
    rewrite (temperature_update_thread dim out flag_IO t m')
      by (try apply Hsized; try assumption; apply dim_ok).
    do 3 f_equal. unfold v. destruct Hinv as (Hq & _ & _).
    fold inp. rewrite (Hq inp Hio), Hidx.
    now destruct (cell_of_coords dim (thread_x t) (thread_y t) Hx) as [-> ->].
  - apply pass_inv_start.
  - exists mf. split; [exact Hrun |]. split; [now apply (sized_pass_inv out v) |].
    split; [apply Hinv |]. intros x y Hx Hy.
    destruct (thread_of_cell dim dim_ok x y Hx Hy) as (t & Ht & Htx & Hty).
    destruct (thread_coords dim dim_ok t Ht) as (_ & _ & Hidx).
    apply ts_all in Ht.
    rewrite Htx, Hty in Hidx. rewrite <- Hidx, (Hwritten t Ht), Hidx. unfold v.
    now destruct (cell_of_coords dim x y Hx) as [-> ->].
Qed.

End Passes.

(** The launches of [animate_display]. *)
Section Launches.
Variable dim : Z.
Hypothesis dim_ok : grid_ok dim.
Variable m : Memory.
Hypothesis m_sized : sized dim m.

Local Abbreviation grid := (blocks_per_grid dim).
Local Abbreviation block := threads_per_block.

Lemma maintain_heaters_pass p :
  exists m',
    launch grid block (maintain_heaters p) m = Some m' /\
    sized dim m' /\
    (forall q, q <> p -> load m' q = load m q) /\
    (forall i, 0 <= i < dim * dim ->
       cell (load m' p) i =
       overlay (cell (load m device_heaters) i) (cell (load m p) i)).
Proof. now apply maintain_heaters_threads. Qed.

Lemma temperature_update_pass flag_IO :
  exists m',
    launch grid block
      (temperature_update dim (snd (select_ptrs flag_IO)) flag_IO) m = Some m' /\
    sized dim m' /\
    (forall q, q <> snd (select_ptrs flag_IO) -> load m' q = load m q) /\
    (forall x y, 0 <= x < dim -> 0 <= y < dim ->
       cell (load m' (snd (select_ptrs flag_IO))) (x + y * dim) =
       stencil dim (load m (fst (select_ptrs flag_IO))) x y).
Proof. now apply temperature_update_threads. Qed.

(** The order in which the threads of a launch run does not matter:
    the threads taken in any other order leave the same memory. *)
Lemma maintain_heaters_any_order p ts :
  (forall t, t ∈ ts <-> t ∈ threads grid block) ->
  for_each (maintain_heaters p) ts m = launch grid block (maintain_heaters p) m.
Proof.
  intros Hts.
  destruct (maintain_heaters_threads dim dim_ok m m_sized ts Hts p)
    as (m1 & -> & Hsized1 & Hother1 & Hcells1).
  destruct (maintain_heaters_pass p) as (m2 & -> & Hsized2 & Hother2 & Hcells2).
  f_equal. apply memory_eq. intros q. destruct (decide (q = p)) as [-> | Hne].
  - apply cells_eq.
    + pose proof (Hsized1 p). pose proof (Hsized2 p). lia.
    + intros i Hi. rewrite Hsized1 in Hi. now rewrite Hcells1, Hcells2.
  - now rewrite Hother1, Hother2.
Qed.

Lemma temperature_update_any_order flag_IO ts :
  (forall t, t ∈ ts <-> t ∈ threads grid block) ->
  for_each (temperature_update dim (snd (select_ptrs flag_IO)) flag_IO) ts m =
  launch grid block (temperature_update dim (snd (select_ptrs flag_IO)) flag_IO) m.
Proof.
  intros Hts.
  destruct (temperature_update_threads dim dim_ok m m_sized ts Hts flag_IO)
    as (m1 & -> & Hsized1 & Hother1 & Hcells1).
  destruct (temperature_update_pass flag_IO)
    as (m2 & -> & Hsized2 & Hother2 & Hcells2).
  f_equal. apply memory_eq. intros q.
  destruct (decide (q = snd (select_ptrs flag_IO))) as [-> | Hne].
  - apply cells_eq.
    + pose proof (Hsized1 (snd (select_ptrs flag_IO))).
      pose proof (Hsized2 (snd (select_ptrs flag_IO))). lia.
    + intros i Hi. rewrite Hsized1 in Hi.
      destruct dim_ok as (Hpos & _ & _).
      pose proof (Z.div_mod i dim ltac:(lia)) as Hdm.
      pose proof (Z.mod_pos_bound i dim ltac:(lia)) as Hmod.
      assert (0 <= i / dim < dim).
      { split; [apply Z.div_pos; lia | apply Z.div_lt_upper_bound; lia]. }
      replace i with (i mod dim + i / dim * dim) by lia.
      now rewrite Hcells1, Hcells2.
  - now rewrite Hother1, Hother2.
Qed.

End Launches.

(** ** The stencil pass *)

(** C1: one stencil sub-step writes, at every cell index of the output
    buffer, the value [current + SPEED * gradient] with
    [gradient = left + right + upper + lower - 4 * current], the five
    values being read from the input buffer at the cell and at its four
    boundary-adjusted neighbour indices: [idx - 1], [idx + 1],
    [idx - dim] and [idx + dim], each replaced by [idx] itself where the
    grid ends; [SPEED] is the binary32 number nearest to 0.2, that is
    13421773 * 2^-26; the input buffer (and the heater map) is left as
    it was. *)
Theorem temperature_update_writes_next_val dim flag_IO m :
  grid_ok dim -> sized dim m ->
  let input_ptr := fst (select_ptrs flag_IO) in
  let output_ptr := snd (select_ptrs flag_IO) in
  exists m',
    launch (blocks_per_grid dim) threads_per_block
      (temperature_update dim output_ptr flag_IO) m = Some m' /\
    load m' input_ptr = load m input_ptr /\
    load m' device_heaters = load m device_heaters /\
    SPEED = S754_finite false 13421773 (-26) /\
    forall x y, 0 <= x < dim -> 0 <= y < dim ->
      let idx := x + y * dim in
      exists current left_val right_val upper_val lower_val,
        array_get (load m input_ptr) idx = Some current /\
        array_get (load m input_ptr) (if x =? 0 then idx else idx - 1)
        = Some left_val /\
        array_get (load m input_ptr) (if x =? dim - 1 then idx else idx + 1)
        = Some right_val /\
        array_get (load m input_ptr) (if y =? 0 then idx else idx - dim)
        = Some upper_val /\
        array_get (load m input_ptr) (if y =? dim - 1 then idx else idx + dim)
        = Some lower_val /\
        array_get (load m' output_ptr) idx =
        Some (F32.add current
                (F32.mul SPEED
                   (F32.sub
                      (F32.add (F32.add (F32.add left_val right_val) upper_val)
                         lower_val)
                      (F32.mul (F32.of_int 4) current)))).
Proof.
  intros Hdim Hm input_ptr output_ptr.
  destruct (temperature_update_pass dim Hdim m Hm flag_IO)
    as (m' & Hrun & Hsized & Hother & Hcells).
  exists m'. split; [exact Hrun |].
  split; [apply Hother; now destruct flag_IO |].
  split; [apply Hother; now destruct flag_IO |].
  split; [reflexivity |].
  intros x y Hx Hy idx. subst idx. destruct Hdim as (_ & _ & Hsq).
  pose proof (idx_range dim Hsq _ _ Hx Hy).
  pose proof (left_idx_range dim Hsq _ _ Hx Hy).
  pose proof (right_idx_range dim Hsq _ _ Hx Hy).
  pose proof (upper_idx_range dim Hsq _ _ Hx Hy).
  pose proof (lower_idx_range dim Hsq _ _ Hx Hy).
  rewrite <- (left_idx_eq dim Hsq x y Hx Hy), <- (right_idx_eq dim Hsq x y Hx Hy),
    <- (upper_idx_eq dim Hsq x y Hx Hy), <- (lower_idx_eq dim Hsq x y Hx Hy).
  do 5 eexists.
  repeat (split; [apply array_get_Some; rewrite Hm; assumption |]).
  rewrite array_get_Some by (rewrite Hsized; assumption).
  f_equal. apply Hcells; assumption.
Qed.

(** The grid of the source is one that the theorems cover. *)
Lemma grid_ok_DIM : grid_ok DIM.
Proof. split; [reflexivity | split; [reflexivity | vm_compute; discriminate]]. Qed.

(** The hypotheses of a witness on the 16 x 16 grid. *)
Ltac on_grid_16 :=
  first [ split; [lia | split; [reflexivity | vm_compute; discriminate]]
        | intros []; reflexivity ].

Lemma temperature_update_writes_next_val_witness :
  exists m',
    launch (blocks_per_grid 16) threads_per_block
      (temperature_update 16 device_output true) (uniform 256 F32.zero) = Some m' /\
    load m' device_input = load (uniform 256 F32.zero) device_input.
Proof.
  destruct (temperature_update_writes_next_val 16 true (uniform 256 F32.zero))
    as (m' & Hrun & Hin & _); [on_grid_16 .. |].
  exists m'. split; [exact Hrun | exact Hin].
Defined.

(** ** Neighbour indices at the boundary *)

(** C2, as stated, fails: at the cell (0, 0) of the 1024 x 1024 grid
    the upper neighbour index is the cell's own index, not the index
    of the row below. *)
Lemma neighbours_reflect_counterexample :
  ~ (forall x y, 0 <= x < DIM -> 0 <= y < DIM ->
       let idx := x + y * DIM in
       left_idx x idx = (if x =? 0 then idx else idx - 1) /\
       right_idx DIM x idx = (if x =? DIM - 1 then idx else idx + 1) /\
       upper_idx DIM y idx = (if y =? 0 then idx + DIM else idx - DIM) /\
       lower_idx DIM y idx = (if y =? DIM - 1 then idx - DIM else idx + DIM)).
Proof.
  intros H. destruct (H 0 0) as (_ & _ & Hupper & _); [vm_compute; split; congruence ..|].
  vm_compute in Hupper. discriminate.
Qed.

(** C2, amended: for every cell (x, y) the neighbour indices are
    left = idx - 1 unless x = 0, right = idx + 1 unless x = dim - 1,
    upper = idx - dim unless y = 0, lower = idx + dim unless
    y = dim - 1, and in each of the four boundary cases the neighbour
    index is the cell's own index: all four directions clamp to self. *)
Theorem neighbours_clamp_to_self dim x y :
  dim * dim <= 2 ^ 31 -> 0 <= x < dim -> 0 <= y < dim ->
  let idx := x + y * dim in
  left_idx x idx = (if x =? 0 then idx else idx - 1) /\
  right_idx dim x idx = (if x =? dim - 1 then idx else idx + 1) /\
  upper_idx dim y idx = (if y =? 0 then idx else idx - dim) /\
  lower_idx dim y idx = (if y =? dim - 1 then idx else idx + dim).
Proof.
  intros Hsq Hx Hy idx. unfold idx.
  split; [now apply left_idx_eq |]. split; [now apply right_idx_eq |].
  split; [now apply upper_idx_eq | now apply lower_idx_eq].
Qed.

Lemma neighbours_clamp_to_self_witness :
  upper_idx DIM 0 (5 + 0 * DIM) = 5 + 0 * DIM /\
  lower_idx DIM 1023 (5 + 1023 * DIM) = 5 + 1023 * DIM.
Proof.
  split.
  - apply (neighbours_clamp_to_self DIM 5 0); [vm_compute; discriminate | | ];
      vm_compute; split; congruence.
  - apply (neighbours_clamp_to_self DIM 5 1023); [vm_compute; discriminate | | ];
      vm_compute; split; congruence.
Defined.

(** ** No access outside the grid *)

(** C9: for every cell (x, y) of the grid, the index of the cell and
    the four neighbour indices of the stencil pass, after their
    boundary adjustment, lie in [0, dim * dim); the heater pass uses the
    index of the cell only. On buffers of [dim * dim] floats a thread
    sitting on the cell therefore runs either kernel without leaving a
    buffer. *)
Theorem indices_in_range dim x y :
  dim * dim <= 2 ^ 31 -> 0 <= x < dim -> 0 <= y < dim ->
  let idx := x + y * dim in
  let in_grid i := 0 <= i < dim * dim in
  in_grid idx /\ in_grid (left_idx x idx) /\ in_grid (right_idx dim x idx) /\
  in_grid (upper_idx dim y idx) /\ in_grid (lower_idx dim y idx) /\
  forall t m p flag_IO,
    thread_x t = x -> thread_y t = y -> thread_idx t = idx -> sized dim m ->
    is_Some (maintain_heaters p t m) /\
    is_Some (temperature_update dim p flag_IO t m).
Proof.
  intros Hsq Hx Hy idx in_grid. unfold in_grid, idx.
  split; [now apply idx_range |]. split; [now apply left_idx_range |].
  split; [now apply right_idx_range |]. split; [now apply upper_idx_range |].
  split; [now apply lower_idx_range |].
  intros t m p flag_IO Htx Hty Hidx Hm.
  pose proof (idx_range dim Hsq _ _ Hx Hy) as Hi. split.
  - rewrite maintain_heaters_thread by (rewrite Hm, Hidx; exact Hi). eauto.
  - rewrite (temperature_update_thread dim p flag_IO t m)
      by (rewrite ?Htx, ?Hty; try apply Hm; assumption).
    eauto.
Qed.

Lemma indices_in_range_witness :
  0 <= lower_idx DIM 1023 (1023 + 1023 * DIM) < DIM * DIM.
Proof.
  apply (indices_in_range DIM 1023 1023); [vm_compute; discriminate | | ];
    vm_compute; split; congruence.
Defined.

(** ** The heater pass *)

Lemma array_get_insert_ne (a : list float) i j v :
  0 <= i -> i <> j -> array_get (<[Z.to_nat i := v]> a) j = array_get a j.
Proof.
  intros Hi Hne. unfold array_get. destruct (Z.leb_spec 0 j); [| reflexivity].
  apply list_lookup_insert_ne. lia.
Qed.

(** C3: the heater pass leaves in every cell of the target buffer the
    heater value when that value is nonzero, and the value the cell had
    when the heater value is zero; the worker of a cell changes no cell
    but its own. *)
Theorem maintain_heaters_overlay dim p m :
  grid_ok dim -> sized dim m ->
  let grid := blocks_per_grid dim in
  let block := threads_per_block in
  (exists m',
     launch grid block (maintain_heaters p) m = Some m' /\
     (forall q, q <> p -> load m' q = load m q) /\
     forall i, 0 <= i < dim * dim ->
       exists h old,
         array_get (load m device_heaters) i = Some h /\
         array_get (load m p) i = Some old /\
         array_get (load m' p) i =
         Some (if F32.neq h (F32.of_int 0) then h else old)) /\
  (forall t, t ∈ threads grid block ->
     exists m1,
       maintain_heaters p t m = Some m1 /\
       forall q j, q <> p \/ j <> thread_idx t ->
         array_get (load m1 q) j = array_get (load m q) j).
Proof.
  intros Hdim Hm grid block. split.
  - destruct (maintain_heaters_pass dim Hdim m Hm p)
      as (m' & Hrun & Hsized & Hother & Hcells).
    exists m'. split; [exact Hrun |]. split; [exact Hother |].
    intros i Hi. do 2 eexists.
    repeat (split; [apply array_get_Some; rewrite Hm; exact Hi |]).
    rewrite array_get_Some by (rewrite Hsized; exact Hi).
    f_equal. now apply Hcells.
  - intros t Ht. pose proof (thread_idx_range dim Hdim t Ht) as Hi.
    rewrite maintain_heaters_thread by (rewrite Hm; exact Hi).
    eexists. split; [reflexivity |]. intros q j Hqj.
    destruct (decide (q = p)) as [-> | Hne].
    + rewrite load_store_eq. apply array_get_insert_ne; [lia |].
      destruct Hqj as [Hq | Hj]; congruence.
    + now rewrite load_store_ne.
Qed.

Lemma maintain_heaters_overlay_witness :
  exists m',
    launch (blocks_per_grid 16) threads_per_block
      (maintain_heaters device_input) (uniform 256 F32.zero) = Some m'.
Proof.
  destruct (maintain_heaters_overlay 16 device_input (uniform 256 F32.zero))
    as [(m' & Hrun & _) _]; [on_grid_16 .. |].
  exists m'. exact Hrun.
Defined.

(** C8: the heater pass applied to the buffer it has just been applied
    to changes nothing: twice in a row is the same as once. *)
Theorem maintain_heaters_idempotent dim p m :
  grid_ok dim -> sized dim m ->
  let pass := launch (blocks_per_grid dim) threads_per_block (maintain_heaters p) in
  exists m1, pass m = Some m1 /\ pass m1 = Some m1.
Proof.
  intros Hdim Hm pass. unfold pass.
  destruct (maintain_heaters_pass dim Hdim m Hm p)
    as (m1 & Hrun1 & Hsized1 & Hother1 & Hcells1).
  destruct (maintain_heaters_pass dim Hdim m1 Hsized1 p)
    as (m2 & Hrun2 & Hsized2 & Hother2 & Hcells2).
  exists m1. split; [exact Hrun1 |]. rewrite Hrun2. f_equal.
  apply memory_eq. intros q. destruct (decide (q = p)) as [-> | Hne].
  - apply cells_eq.
    + pose proof (Hsized1 p). pose proof (Hsized2 p). lia.
    + intros i Hi. rewrite Hsized2 in Hi. rewrite (Hcells2 i Hi).
      destruct (decide (device_heaters = p)) as [<- | Hh].
      * rewrite !(Hcells1 i Hi). unfold overlay. now destruct (F32.neq _ _).
      * rewrite (Hother1 device_heaters Hh), (Hcells1 i Hi). apply overlay_overlay.
  - now apply Hother2.
Qed.

Lemma maintain_heaters_idempotent_witness :
  exists m1,
    launch (blocks_per_grid 16) threads_per_block
      (maintain_heaters device_output) (uniform 256 MAX_TEMPERATURE) = Some m1 /\
    launch (blocks_per_grid 16) threads_per_block
      (maintain_heaters device_output) m1 = Some m1.
Proof.
  apply (maintain_heaters_idempotent 16 device_output
           (uniform 256 MAX_TEMPERATURE)); on_grid_16.
Defined.

(** ** The worked example *)

(** C5: on the 4 x 4 grid with no heater and the value 1 in the cell
    (0, 0) only, the sub-step reads left = 1, right = 0, upper = 1 and
    lower = 0 for the cell (0, 0), finds the gradient -2 and writes the
    binary32 number nearest to 0.6. The 16 x 16 blocks of the source
    cannot tile a 4 x 4 grid; the example runs on one block of 4 x 4
    threads. *)
Theorem example_4x4_cell_0_0 :
  let a := load example_4x4 device_input in
  let idx := 0 + 0 * 4 in
  let one := F32.of_int 1 in
  array_get a idx = Some one /\
  array_get a (left_idx 0 idx) = Some one /\
  array_get a (right_idx 4 0 idx) = Some F32.zero /\
  array_get a (upper_idx 4 0 idx) = Some one /\
  array_get a (lower_idx 4 0 idx) = Some F32.zero /\
  F32.sub (F32.add (F32.add (F32.add one F32.zero) one) F32.zero)
    (F32.mul (F32.of_int 4) one) = F32.of_int (-2) /\
  F32.add one (F32.mul SPEED (F32.of_int (-2))) = F32.literal 6 10 /\
  exists m',
    sub_step (Dim3 1 1) (Dim3 4 4) 4 true example_4x4 = Some m' /\
    array_get (load m' device_output) idx = Some (F32.literal 6 10).
Proof.
  repeat (split; [vm_compute; reflexivity |]).
  eexists. split; vm_compute; reflexivity.
Qed.

(** ** The ping-pong loop *)

Section Loop.
Variable dim : Z.
Hypothesis dim_ok : grid_ok dim.

Local Abbreviation grid := (blocks_per_grid dim).
Local Abbreviation block := threads_per_block.

(** A sub-step always completes: the heater pass on the input buffer,
    then the stencil pass from the input buffer to the output one. *)
Lemma sub_step_runs flag_IO m :
  sized dim m ->
  exists mh m',
    launch grid block (maintain_heaters (fst (select_ptrs flag_IO))) m = Some mh /\
    launch grid block
      (temperature_update dim (snd (select_ptrs flag_IO)) flag_IO) mh = Some m' /\
    sub_step grid block dim flag_IO m = Some m' /\
    sized dim mh /\ sized dim m'.
Proof.
  intros Hm.
  destruct (maintain_heaters_pass dim dim_ok m Hm (fst (select_ptrs flag_IO)))
    as (mh & Hrun1 & Hsized1 & _).
  destruct (temperature_update_pass dim dim_ok mh Hsized1 flag_IO)
    as (m' & Hrun2 & Hsized2 & _).
  exists mh, m'. repeat split; try assumption.
  unfold sub_step. destruct flag_IO; cbn [select_ptrs fst snd] in *;
    rewrite Hrun1; exact Hrun2.
Qed.

(** The toggle after [n] iterations is the initial one when [n] is
    even and its negation when [n] is odd. *)
Lemma animate_loop_runs n : forall flag_IO m,
  sized dim m ->
  exists m',
    animate_loop dim n flag_IO m =
    Some (if Nat.even n then flag_IO else negb flag_IO, m') /\
    sized dim m'.
Proof.
  induction n as [| n IH]; intros flag_IO m Hm.
  - exists m. split; [reflexivity | exact Hm].
  - destruct (sub_step_runs flag_IO m Hm) as (mh & m1 & _ & _ & Hstep & _ & Hm1).
    destruct (IH (negb flag_IO) m1 Hm1) as (m' & Hloop & Hm').
    exists m'. split; [| exact Hm'].
    cbn [animate_loop].  rewrite Hstep. cbn [mbind option_bind].
    rewrite Hloop. rewrite Nat.even_succ, <- Nat.negb_even.
    destruct (Nat.even n), flag_IO; reflexivity.
Qed.

(** The last iteration of a loop of [S n] iterations. *)
Lemma animate_loop_last n : forall flag_IO m,
  animate_loop dim (S n) flag_IO m =
  '(flag, m') ← animate_loop dim n flag_IO m;
  m'' ← sub_step grid block dim flag m';
  Some (negb flag, m'').
Proof.
  induction n as [| n IH]; intros flag_IO m.
  - cbn. now destruct (sub_step _ _ dim flag_IO m).
  - change (animate_loop dim (S (S n)) flag_IO m)
      with (m' ← sub_step grid block dim flag_IO m;
            animate_loop dim (S n) (negb flag_IO) m').
    cbn [animate_loop].
    destruct (sub_step _ _ dim flag_IO m) as [m1 |]; [| reflexivity].
    cbn [mbind option_bind]. apply IH.
Qed.

End Loop.

(** C6: within a frame the loop starts with [device_input] as the input
    buffer and swaps the two buffers at every sub-step. After [n]
    sub-steps, the sub-step that follows takes [device_input] as its
    input buffer when [n] is even and [device_output] when [n] is odd:
    its heater launch stamps that buffer and leaves the other alone,
    and its stencil launch reads that buffer, leaves it alone and
    writes every cell of the other, which is then the output buffer. *)
Theorem buffers_swap_every_sub_step dim n m :
  grid_ok dim -> sized dim m ->
  let grid := blocks_per_grid dim in
  let block := threads_per_block in
  let input_buffer := if Nat.even n then device_input else device_output in
  let output_buffer := if Nat.even n then device_output else device_input in
  exists m_n mh m',
    animate_loop dim n true m = Some (Nat.even n, m_n) /\
    launch grid block (maintain_heaters input_buffer) m_n = Some mh /\
    launch grid block (temperature_update dim output_buffer (Nat.even n)) mh
    = Some m' /\
    sub_step grid block dim (Nat.even n) m_n = Some m' /\
    animate_loop dim (S n) true m = Some (negb (Nat.even n), m') /\
    load mh output_buffer = load m_n output_buffer /\
    (forall i, 0 <= i < dim * dim ->
       array_get (load mh input_buffer) i =
       Some (overlay (cell (load m_n device_heaters) i)
               (cell (load m_n input_buffer) i))) /\
    load m' input_buffer = load mh input_buffer /\
    (forall x y, 0 <= x < dim -> 0 <= y < dim ->
       array_get (load m' output_buffer) (x + y * dim) =
       Some (stencil dim (load mh input_buffer) x y)).
Proof.
  intros Hdim Hm grid block input_buffer output_buffer.
  destruct (animate_loop_runs dim Hdim n true m Hm) as (m_n & Hloop & Hmn).
  replace (if Nat.even n then true else negb true) with (Nat.even n) in Hloop
    by (now destruct (Nat.even n)).
  assert (Hin : input_buffer = fst (select_ptrs (Nat.even n)))
    by (subst input_buffer; now destruct (Nat.even n)).
  assert (Hout : output_buffer = snd (select_ptrs (Nat.even n)))
    by (subst output_buffer; now destruct (Nat.even n)).
  assert (Hio : input_buffer <> output_buffer)
    by (subst input_buffer output_buffer; now destruct (Nat.even n)).
  clearbody input_buffer output_buffer.
  destruct (maintain_heaters_pass dim Hdim m_n Hmn input_buffer)
    as (mh & Hrun1 & Hmh & Hother1 & Hcells1).
  destruct (temperature_update_pass dim Hdim mh Hmh (Nat.even n))
    as (m' & Hrun2 & Hm' & Hother2 & Hcells2).
  rewrite <- Hin in Hcells2. rewrite <- Hout in Hrun2, Hother2, Hcells2.
  assert (Hsq : dim * dim <= 2 ^ 31) by apply Hdim.
  exists m_n, mh, m'. split; [exact Hloop |]. split; [exact Hrun1 |].
  split; [exact Hrun2 |].
  assert (Hstep : sub_step grid block dim (Nat.even n) m_n = Some m').
  { destruct (sub_step_runs dim Hdim (Nat.even n) m_n Hmn)
      as (mh0 & m0 & Hheat & Hstencil & Hstep & _).
    rewrite <- Hin in Hheat. rewrite <- Hout in Hstencil.
    assert (mh0 = mh) by congruence. subst mh0.
    assert (m0 = m') by congruence. subst m0. exact Hstep. }
  split; [exact Hstep |]. split.
  { rewrite animate_loop_last, Hloop. cbn [mbind option_bind option_ret mret].
    subst grid block. rewrite Hstep. reflexivity. }
  split; [apply Hother1; congruence |]. split.
  { intros i Hi. rewrite array_get_Some by (rewrite Hmh; exact Hi).
    f_equal. now apply Hcells1. }
  split; [apply Hother2; congruence |].
  intros x y Hx Hy. pose proof (idx_range dim Hsq x y Hx Hy).
  rewrite array_get_Some by (rewrite Hm'; assumption).
  f_equal. now apply Hcells2.
Qed.

Lemma buffers_swap_every_sub_step_witness :
  let m :=
    mkMemory (replicate 256 MAX_TEMPERATURE) (replicate 256 F32.zero)
      (replicate 256 F32.zero) in
  exists m_3 mh m',
    animate_loop 16 3 true m = Some (false, m_3) /\
    launch (blocks_per_grid 16) threads_per_block
      (maintain_heaters device_output) m_3 = Some mh /\
    launch (blocks_per_grid 16) threads_per_block
      (temperature_update 16 device_input false) mh = Some m' /\
    sub_step (blocks_per_grid 16) threads_per_block 16 false m_3 = Some m' /\
    animate_loop 16 4 true m = Some (true, m').
Proof.
  intros m.
  destruct (buffers_swap_every_sub_step 16 3 m)
    as (m_3 & mh & m' & Hloop & Hheat & Hstencil & Hstep & Hnext & _);
    [on_grid_16 .. |].
  exists m_3, mh, m'.
  split; [exact Hloop |]. split; [exact Hheat |]. split; [exact Hstencil |].
  split; [exact Hstep | exact Hnext].
Defined.

(** C10: the export of a frame reads [device_input]. The last of the 50
    sub-steps runs with [flag_IO] false, so its stencil pass reads
    [device_output] and writes [device_input]: the exported buffer holds
    the result of the last sub-step, and the toggle is back to its
    initial value [true] when the loop ends. *)
Theorem export_reads_last_result dim m :
  grid_ok dim -> sized dim m ->
  let grid := blocks_per_grid dim in
  let block := threads_per_block in
  Nat.even TIME_STEPS_PER_FRAME = true /\
  exists m49 mh mf,
    animate_loop dim (Nat.pred TIME_STEPS_PER_FRAME) true m = Some (false, m49) /\
    launch grid block (maintain_heaters device_output) m49 = Some mh /\
    launch grid block (temperature_update dim device_input false) mh = Some mf /\
    animate_loop dim TIME_STEPS_PER_FRAME true m = Some (true, mf) /\
    animate_display dim m = Some (load mf device_input, mf) /\
    forall x y, 0 <= x < dim -> 0 <= y < dim ->
      cell (load mf device_input) (x + y * dim) =
      stencil dim (load mh device_output) x y.
Proof.
  intros Hdim Hm grid block. split; [reflexivity |].
  destruct (animate_loop_runs dim Hdim (Nat.pred TIME_STEPS_PER_FRAME) true m Hm)
    as (m49 & Hloop & Hm49).
  change (if Nat.even (Nat.pred TIME_STEPS_PER_FRAME) then true else negb true)
    with false in Hloop.
  destruct (sub_step_runs dim Hdim false m49 Hm49)
    as (mh & mf & Hrun1 & Hrun2 & Hstep & Hmh & _).
  cbn [select_ptrs fst snd] in Hrun1, Hrun2.
  destruct (temperature_update_pass dim Hdim mh Hmh false)
    as (mf' & Hrun2' & _ & _ & Hcells).
  cbn [select_ptrs fst snd] in Hrun2', Hcells.
  assert (mf' = mf) as -> by congruence.
  assert (Hall : animate_loop dim TIME_STEPS_PER_FRAME true m = Some (true, mf)).
  { change TIME_STEPS_PER_FRAME with (S (Nat.pred TIME_STEPS_PER_FRAME)).
    rewrite animate_loop_last, Hloop. cbn [mbind option_bind].
    rewrite Hstep. reflexivity. }
  exists m49, mh, mf. repeat split; try assumption.
  unfold animate_display. rewrite Hall. reflexivity.
Qed.

Lemma export_reads_last_result_witness :
  exists mf,
    animate_display 16 (uniform 256 F32.zero) = Some (load mf device_input, mf).
Proof.
  destruct (export_reads_last_result 16 (uniform 256 F32.zero))
    as (_ & _ & _ & mf & _ & _ & _ & _ & Hframe & _); [on_grid_16 .. |].
  exists mf. exact Hframe.
Defined.

(** ** The heater map *)

(** ** Loops *)

(** The rule of the [for] loop: an invariant that holds at the lower
    bound and that every iteration carries over holds at the upper
    bound, and the loop completes. *)
Lemma for_loop_rule {S : Type} (P : Z -> S -> Prop) (body : Z -> S -> option S)
  (lo hi : Z) (s : S) :
  lo <= hi -> P lo s ->
  (forall i s, lo <= i < hi -> P i s -> exists s', body i s = Some s' /\ P (i + 1) s') ->
  exists s', for_loop lo hi body s = Some s' /\ P hi s'.
Proof.
  intros Hle Hstart Hstep. unfold for_loop.
  remember (Z.to_nat (hi - lo)) as n eqn:Hn.
  revert lo s Hle Hstart Hstep Hn.
  induction n as [| n IH]; intros lo s Hle Hstart Hstep Hn.
  - assert (lo = hi) as -> by lia. rewrite seqZ_nil by lia. exists s. now split.
  - rewrite seqZ_cons by lia. cbn [for_each].
    destruct (Hstep lo s ltac:(lia) Hstart) as (s1 & -> & Hs1). cbn [mbind option_bind].
    replace (Z.pred (hi - lo)) with (hi - Z.succ lo) by lia.
    apply IH; try lia.
    + now rewrite <- Z.add_1_r.
    + intros i s' Hi. apply Hstep. lia.
Qed.

(** ** Rules on cells *)

Lemma cell_insert (g : list float) i j v :
  0 <= i < Z.of_nat (length g) ->
  cell (<[Z.to_nat i := v]> g) j = if j =? i then v else cell g j.
Proof.
  intros Hi. destruct (Z.eqb_spec j i) as [-> | Hne].
  - now apply cell_insert_eq.
  - apply cell_insert_ne; lia.
Qed.

Lemma cell_apply_rule dim r (g : list float) i :
  0 <= i < Z.of_nat (length g) ->
  cell (apply_rule dim r g) i = rule_cell dim r i (cell g i).
Proof.
  intros Hi. unfold cell, array_get, apply_rule, rule_cell.
  destruct (Z.leb_spec 0 i); [| lia].
  rewrite list_lookup_imap, Z2Nat.id by lia.
  destruct (lookup_lt_is_Some_2 g (Z.to_nat i)) as [v ->]; [lia |].
  cbn. now destruct (covers r _ _).
Qed.

Lemma length_apply_rule dim r (g : list float) :
  length (apply_rule dim r g) = length g.
Proof. apply length_imap. Qed.

Lemma cell_replicate n (v : float) i :
  0 <= i < Z.of_nat n -> cell (replicate n v) i = v.
Proof.
  intros Hi. unfold cell, array_get. destruct (Z.leb_spec 0 i); [| lia].
  rewrite lookup_replicate_2 by lia. reflexivity.
Qed.

Lemma cell_take (g : list float) n i :
  0 <= i < Z.of_nat n -> cell (take n g) i = cell g i.
Proof.
  intros Hi. unfold cell, array_get. destruct (Z.leb_spec 0 i); [| lia].
  rewrite lookup_take_lt by lia. reflexivity.
Qed.

(** Case analysis on the comparisons of a goal about cells of the
    1024 x 1024 grid; the cases are closed by linear arithmetic on the
    coordinates. *)
Ltac split_comparison :=
  match goal with
  | |- context [?u =? ?w] => destruct (Z.eqb_spec u w)
  | |- context [?u <? ?w] => destruct (Z.ltb_spec u w)
  | |- context [?u <=? ?w] => destruct (Z.leb_spec u w)
  end.

Ltac cell_cases :=
  repeat (split_comparison; cbn [andb orb negb]);
  try reflexivity; try (exfalso; Z.div_mod_to_equations; lia).

Ltac unfold_rules :=
  unfold rule_cell, rule_rectangle, rule_point_mid, rule_point_a, rule_point_b,
    rule_point_c, rule_block_min, rule_block_max, block_rule, point_rule, DIM;
  cbn [covers forced].

(** ** The loops of [main] *)

(** Two nested loops that store one value over a block of cells. *)
Lemma block_fill x0 x1 y0 y1 v (g : list float) :
  0 <= x0 <= x1 -> x1 <= 1024 -> 0 <= y0 <= y1 -> y1 <= 1024 ->
  y1 * 1024 <= Z.of_nat (length g) ->
  exists g',
    for_loop y0 y1 (λ k,
      for_loop x0 x1 (λ j g, array_set g (Int.add j (Int.mul k DIM)) v)) g
    = Some g' /\
    length g' = length g /\
    forall j, 0 <= j < Z.of_nat (length g) ->
      cell g' j = rule_cell DIM (block_rule x0 x1 y0 y1 v) j (cell g j).
Proof.
  intros Hx Hx1 Hy Hy1 Hlen.
  apply (for_loop_rule (λ k g',
    length g' = length g /\
    forall j, 0 <= j < Z.of_nat (length g) ->
      cell g' j = rule_cell DIM (block_rule x0 x1 y0 k v) j (cell g j)));
    [lia | |].
  - split; [reflexivity |]. intros j Hj. unfold_rules. cell_cases.
  - intros k g1 Hk (Hlen1 & Hcells1).
    destruct (for_loop_rule (λ c g2,
      length g2 = length g /\
      forall j, 0 <= j < Z.of_nat (length g) ->
        cell g2 j = rule_cell DIM (block_rule x0 c k (k + 1) v) j (cell g1 j))
      (λ j g, array_set g (Int.add j (Int.mul k DIM)) v) x0 x1 g1)
      as (g2 & Hrun & Hlen2 & Hcells2); [lia | |  |].
    + split; [exact Hlen1 |]. intros j Hj. unfold_rules. cell_cases.
    + intros c g2 Hc (Hlen2 & Hcells2).
      assert (Hidx : Int.add c (Int.mul k DIM) = c + k * 1024).
      { unfold Int.add, Int.mul, DIM.
        rewrite (IntFacts.wrap_small (k * 1024)) by lia.
        apply IntFacts.wrap_small. lia. }
      rewrite Hidx, array_set_Some by lia.
      eexists. split; [reflexivity |]. split; [now rewrite length_insert |].
      intros j Hj. rewrite cell_insert by lia. rewrite (Hcells2 j Hj).
      unfold_rules. cell_cases.
    + exists g2. split; [exact Hrun |]. split; [exact Hlen2 |].
      intros j Hj. rewrite (Hcells2 j Hj), (Hcells1 j Hj).
      unfold_rules. cell_cases.
Qed.

Lemma point_cell px py v j old :
  0 <= j -> 0 <= px < 1024 ->
  (if j =? px + py * 1024 then v else old) =
  rule_cell DIM (point_rule px py v) j old.
Proof. intros Hj Hpx. unfold_rules. cell_cases. Qed.

(** The test of the first loop on its own cell is the rectangle rule. *)
Lemma rectangle_cell i :
  0 <= i ->
  (if (Z.rem i DIM >? 300) && (Z.rem i DIM <? 600)
      && (i ÷ DIM >? 310) && (i ÷ DIM <? 601)
   then MAX_TEMPERATURE else F32.zero) =
  rule_cell DIM rule_rectangle i F32.zero.
Proof.
  intros Hi. unfold DIM.
  rewrite Z.rem_mod_nonneg, Z.quot_div_nonneg, !Z.gtb_ltb by lia.
  reflexivity.
Qed.

Lemma loop_cell_step i j old :
  0 <= i -> 0 <= j ->
  body_cell DIM i j (loop_cell DIM i j old) = loop_cell DIM (i + 1) j old.
Proof.
  intros Hi Hj. unfold body_cell, loop_cell, replayed, rule_cell.
  repeat match goal with
         | |- context [covers ?r ?a ?b] => destruct (covers r a b)
         end; cell_cases.
Qed.

(** One iteration of the first loop of [main]. *)
Lemma heaters_body_cells i (g : list float) :
  0 <= i < 1024 * 1024 -> 1024 * 1024 <= Z.of_nat (length g) ->
  exists g',
    heaters_body DIM i g = Some g' /\
    length g' = length g /\
    forall j, 0 <= j < Z.of_nat (length g) ->
      cell g' j = body_cell DIM i j (cell g j).
Proof.
  intros Hi Hlen. unfold heaters_body.
  rewrite array_set_Some by lia. cbn [mbind option_bind].
  set (g1 := <[Z.to_nat i := F32.zero]> g).
  assert (Hlen1 : length g1 = length g) by apply length_insert.
  assert (Hrect : exists g2,
    (if (Z.rem i DIM >? 300) && (Z.rem i DIM <? 600)
        && (i ÷ DIM >? 310) && (i ÷ DIM <? 601)
     then array_set g1 i MAX_TEMPERATURE else Some g1) = Some g2 /\
    length g2 = length g /\
    forall j, 0 <= j < Z.of_nat (length g) ->
      cell g2 j =
      if j =? i then rule_cell DIM rule_rectangle j F32.zero else cell g j).
  { pose proof (rectangle_cell i ltac:(lia)) as Hr.
    destruct (_ && _).
    - rewrite array_set_Some by lia. eexists. split; [reflexivity |].
      split; [now rewrite length_insert |]. intros j Hj.
      rewrite cell_insert by lia. unfold g1. rewrite cell_insert by lia.
      destruct (Z.eqb_spec j i) as [-> | _]; [exact Hr | reflexivity].
    - exists g1. split; [reflexivity |]. split; [exact Hlen1 |]. intros j Hj.
      unfold g1. rewrite cell_insert by lia.
      destruct (Z.eqb_spec j i) as [-> | _]; [exact Hr | reflexivity]. }
  destruct Hrect as (g2 & -> & Hlen2 & Hcells2). cbn [mbind option_bind].
  change (Int.add 100 (Int.mul 100 DIM)) with (100 + 100 * 1024).
  change (Int.add 100 (Int.mul 700 DIM)) with (100 + 700 * 1024).
  change (Int.add 300 (Int.mul 300 DIM)) with (300 + 300 * 1024).
  change (Int.add 700 (Int.mul 200 DIM)) with (700 + 200 * 1024).
  rewrite array_set_Some by lia. cbn [mbind option_bind].
  rewrite array_set_Some by (rewrite ?length_insert; lia). cbn [mbind option_bind].
  rewrite array_set_Some by (rewrite ?length_insert; lia). cbn [mbind option_bind].
  rewrite array_set_Some by (rewrite ?length_insert; lia). cbn [mbind option_bind].
  match goal with
  | |- context [for_loop 800 900 _ ?g6] =>
      destruct (block_fill 400 500 800 900 MIN_TEMPERATURE g6)
        as (g' & Hrun & Hlen' & Hcells'); [rewrite ?length_insert; lia .. |]
  end.
  exists g'. split; [exact Hrun |].
  rewrite !length_insert in Hlen', Hcells'.
  split; [congruence |]. intros j Hj.
  rewrite Hcells' by lia.
  rewrite !cell_insert by (rewrite ?length_insert; lia).
  rewrite !point_cell by lia. rewrite Hcells2 by lia. reflexivity.
Qed.

(** The first loop of [main]. *)
Lemma first_loop_cells (g : list float) :
  1024 * 1024 <= Z.of_nat (length g) ->
  exists g',
    for_loop 0 (Int.mul DIM DIM) (heaters_body DIM) g = Some g' /\
    length g' = length g /\
    forall j, 0 <= j < 1024 * 1024 ->
      cell g' j = replayed DIM j (rule_cell DIM rule_rectangle j F32.zero).
Proof.
  intros Hlen. change (Int.mul DIM DIM) with (1024 * 1024).
  destruct (for_loop_rule (λ n g',
    length g' = length g /\
    forall j, 0 <= j < Z.of_nat (length g) ->
      cell g' j = loop_cell DIM n j (cell g j))
    (heaters_body DIM) 0 (1024 * 1024) g)
    as (g' & Hrun & Hlen' & Hcells'); [lia | |  |].
  - split; [reflexivity |]. intros j Hj. reflexivity.
  - intros i g1 Hi (Hlen1 & Hcells1).
    destruct (heaters_body_cells i g1) as (g2 & Hrun & Hlen2 & Hcells2); [lia .. |].
    exists g2. split; [exact Hrun |]. split; [congruence |].
    intros j Hj. rewrite Hcells2, Hcells1 by lia. apply loop_cell_step; lia.
  - exists g'. split; [exact Hrun |]. split; [exact Hlen' |].
    intros j Hj. rewrite Hcells' by lia. unfold loop_cell.
    destruct (Z.ltb_spec j (1024 * 1024)); [reflexivity | lia].
Qed.

Lemma cudaMemcpy_whole m p (host : list float) n :
  0 <= n <= Z.of_nat (length host) ->
  Z.of_nat (length (load m p)) = n ->
  cudaMemcpy m p host (4 * n) = Some (store m p (take (Z.to_nat n) host)).
Proof.
  intros Hn Hp. unfold cudaMemcpy.
  replace (4 * n) with (n * 4) by lia.
  rewrite Z.quot_mul, Z.rem_mul by lia.
  destruct (Z.leb_spec 0 (n * 4)); [| lia].
  destruct (Z.leb_spec n (Z.of_nat (length host))); [| lia].
  destruct (Z.leb_spec n (Z.of_nat (length (load m p)))); [| lia].
  cbn. rewrite drop_ge by lia. now rewrite app_nil_r.
Qed.

Lemma cell_heater_map_spec j :
  0 <= j < 1024 * 1024 ->
  cell (heater_map_spec DIM) j =
  rule_cell DIM (rule_block_max DIM) j
    (replayed DIM j (rule_cell DIM rule_rectangle j F32.zero)).
Proof.
  intros Hj. unfold heater_map_spec, construction_rules. cbn [foldl].
  rewrite !cell_apply_rule
    by (rewrite ?length_apply_rule, length_replicate; unfold DIM; lia).
  rewrite cell_replicate by (unfold DIM; lia). reflexivity.
Qed.

Lemma length_heater_map_spec :
  length (heater_map_spec DIM) = Z.to_nat (1024 * 1024).
Proof.
  unfold heater_map_spec, construction_rules. cbn [foldl].
  rewrite !length_apply_rule. apply length_replicate.
Qed.

(** C4: the heater map that [main] leaves on the device is the
    sequential application of the construction rules to the all-zero
    grid, later rules overriding earlier ones: the rectangle
    300 < x < 600, 310 < y < 601 at [MAX_TEMPERATURE], the four points
    (one at the midpoint of the two temperatures, three at
    [MIN_TEMPERATURE]), the block 400 <= x < 500, 800 <= y < 900 at
    [MIN_TEMPERATURE] and, by the second upload, the block 0 <= x < 200,
    800 <= y < DIM at [MAX_TEMPERATURE]. [size] is the value of
    [bitmap.size()], the byte size of a DIM x DIM image of four-byte
    pixels. *)
Theorem main_builds_heater_map size (heaters_grid : list float) m :
  size = 4 * (DIM * DIM) ->
  Z.of_nat (length heaters_grid) = size ->
  4 * Z.of_nat (length (load m device_heaters)) = size ->
  exists m',
    main DIM size heaters_grid m = Some m' /\
    load m' device_heaters = heater_map_spec DIM /\
    load m' device_input = load m device_input /\
    load m' device_output = load m device_output.
Proof.
  intros -> Hhost Hdev. unfold main. change (DIM * DIM) with (1024 * 1024) in *.
  destruct (first_loop_cells heaters_grid) as (g1 & -> & Hlen1 & Hcells1); [lia |].
  cbn [mbind option_bind].
  rewrite cudaMemcpy_whole by lia. cbn [mbind option_bind].
  destruct (block_fill 0 200 800 1024 MAX_TEMPERATURE g1)
    as (g2 & Hrun2 & Hlen2 & Hcells2); [lia .. |].
  unfold heaters_second_pass. change (@for_loop (list float) 800 DIM) with (@for_loop (list float) 800 1024).
  rewrite Hrun2. cbn [mbind option_bind].
  rewrite cudaMemcpy_whole
    by (rewrite ?load_store_eq, ?length_take; lia).
  eexists. split; [reflexivity |].
  rewrite !load_store_eq, !load_store_ne by discriminate.
  split; [| split; reflexivity].
  apply cells_eq.
  - rewrite length_take, length_heater_map_spec. lia.
  - intros j Hj. rewrite length_take in Hj.
    rewrite cell_take, cell_heater_map_spec, Hcells2, Hcells1 by lia.
    reflexivity.
Qed.

Lemma main_builds_heater_map_witness :
  exists m',
    main DIM 4194304 (replicate (Z.to_nat 4194304) F32.zero)
      (uniform (Z.to_nat 1048576) F32.zero) = Some m' /\
    load m' device_heaters = heater_map_spec DIM.
Proof.
  destruct (main_builds_heater_map 4194304
              (replicate (Z.to_nat 4194304) F32.zero)
              (uniform (Z.to_nat 1048576) F32.zero))
    as (m' & Hrun & Hmap & _).
  - reflexivity.
  - rewrite length_replicate. lia.
  - cbn [uniform load heaters_buf]. rewrite length_replicate. lia.
  - exists m'. split; [exact Hrun | exact Hmap].
Defined.

(** ** Binary32 arithmetic *)

Module F32Facts.
Import F32.

Abbreviation fexp := (SpecFloat.fexp prec emax).
Abbreviation round_aux := (binary_round_aux prec emax).

Lemma fexp_eq e : fexp e = Z.max (e - 24) (-149).
Proof. reflexivity. Qed.

Lemma digits2_pos_bounds n :
  2 ^ (Z.pos (digits2_pos n) - 1) <= Z.pos n < 2 ^ Z.pos (digits2_pos n).
Proof.
  induction n as [n IH | n IH |]; cbn [digits2_pos];
    rewrite ?Pos2Z.inj_succ;
    [rewrite (Pos2Z.inj_xI n) | rewrite (Pos2Z.inj_xO n) |].
  - replace (Z.succ (Z.pos (digits2_pos n)) - 1)
      with (Z.succ (Z.pos (digits2_pos n) - 1)) by lia.
    rewrite !Z.pow_succ_r by lia. lia.
  - replace (Z.succ (Z.pos (digits2_pos n)) - 1)
      with (Z.succ (Z.pos (digits2_pos n) - 1)) by lia.
    rewrite !Z.pow_succ_r by lia. lia.
  - cbn. lia.
Qed.

Lemma digits2_pos_unique n d :
  2 ^ (d - 1) <= Z.pos n < 2 ^ d -> Z.pos (digits2_pos n) = d.
Proof.
  intros Hd. pose proof (digits2_pos_bounds n) as Hn.
  assert (0 < d).
  { destruct (Z.lt_ge_cases 0 d) as [| Hle]; [assumption |].
    assert (2 ^ d <= 2 ^ 0) by (apply Z.pow_le_mono_r; lia). lia. }
  assert (H1 : Z.log2 (Z.pos n) = d - 1).
  { apply Z.log2_unique; [lia |]. now replace (Z.succ (d - 1)) with d by lia. }
  assert (H2 : Z.log2 (Z.pos n) = Z.pos (digits2_pos n) - 1).
  { apply Z.log2_unique; [lia |].
    now replace (Z.succ (Z.pos (digits2_pos n) - 1))
      with (Z.pos (digits2_pos n)) by lia. }
  lia.
Qed.

Lemma digits2_pos_le n d : 0 <= d -> Z.pos n < 2 ^ d -> Z.pos (digits2_pos n) <= d.
Proof.
  intros Hd Hn. pose proof (digits2_pos_bounds n) as Hb.
  destruct (Z.le_gt_cases (Z.pos (digits2_pos n)) d) as [| Hgt]; [assumption |].
  assert (2 ^ d <= 2 ^ (Z.pos (digits2_pos n) - 1))
    by (apply Z.pow_le_mono_r; lia).
  lia.
Qed.

Lemma shr_1_nonneg m r s :
  0 <= m ->
  shr_1 {| shr_m := m; shr_r := r; shr_s := s |} =
  {| shr_m := m / 2; shr_r := negb (m mod 2 =? 0); shr_s := r || s |}.
Proof.
  intros Hm. destruct m as [| p | p]; [reflexivity | | lia].
  destruct p as [p | p |]; cbn [shr_1]; [| | reflexivity].
  - assert (Z.pos p~1 / 2 = Z.pos p /\ Z.pos p~1 mod 2 = 1) as [-> ->];
      [| reflexivity].
    rewrite (Pos2Z.inj_xI p). Z.div_mod_to_equations. lia.
  - assert (Z.pos p~0 / 2 = Z.pos p /\ Z.pos p~0 mod 2 = 0) as [-> ->];
      [| reflexivity].
    rewrite (Pos2Z.inj_xO p). Z.div_mod_to_equations. lia.
Qed.

(** A mantissa that needs no shift is kept. *)
Lemma round_exact s n e :
  fexp (Z.pos (digits2_pos n) + e) <= e ->
  round_aux s (Z.pos n) e loc_Exact = finite_or_inf s n e.
Proof.
  intros Hshift. unfold binary_round_aux, shr_fexp.
  cbn [Zdigits2 shr_record_of_loc].
  destruct (fexp (Z.pos (digits2_pos n) + e) - e) as [| k | k] eqn:Hk; [| lia |];
    cbn [shr shr_m loc_of_shr_record round_nearest_even Zdigits2 shr_record_of_loc];
    rewrite Hk; reflexivity.
Qed.

Lemma round_tail s t e :
  fexp (Z.pos (digits2_pos t) + e) <= e ->
  (let '(mrs, e') :=
     shr (shr_record_of_loc (Z.pos t) loc_Exact) e
       (fexp (Zdigits2 (Z.pos t) + e) - e) in
   match shr_m mrs with
   | 0 => S754_zero s
   | Z.pos m => if e' <=? emax - prec then S754_finite s m e' else S754_infinity s
   | Z.neg _ => S754_nan
   end) = finite_or_inf s t e.
Proof.
  intros Hkeep. cbn [Zdigits2].
  destruct (fexp (Z.pos (digits2_pos t) + e) - e) as [| k | k] eqn:Hk; [| lia |];
    reflexivity.
Qed.

(** A mantissa one bit too long. *)
Lemma round_shift1 s n e t :
  fexp (Z.pos (digits2_pos n) + e) - e = 1 ->
  rne1 (Z.pos n) = Z.pos t ->
  fexp (Z.pos (digits2_pos t) + (e + 1)) <= e + 1 ->
  round_aux s (Z.pos n) e loc_Exact = finite_or_inf s t (e + 1).
Proof.
  intros Hshift Hrne Hkeep. unfold binary_round_aux, shr_fexp.
  cbn [Zdigits2 shr_record_of_loc]. rewrite Hshift. cbn [shr SpecFloat.iter_pos].
  rewrite shr_1_nonneg by lia. cbn [shr_m orb].
  assert (Hr : round_nearest_even (Z.pos n / 2)
                 (loc_of_shr_record
                    {| shr_m := Z.pos n / 2;
                       shr_r := negb (Z.pos n mod 2 =? 0);
                       shr_s := false |}) = Z.pos t).
  { rewrite <- Hrne. unfold rne1. now destruct (_ =? 0). }
  rewrite Hr. now apply round_tail.
Qed.

(** A mantissa two bits too long. *)
Lemma round_shift2 s n e t :
  fexp (Z.pos (digits2_pos n) + e) - e = 2 ->
  rne2 (Z.pos n) = Z.pos t ->
  fexp (Z.pos (digits2_pos t) + (e + 2)) <= e + 2 ->
  round_aux s (Z.pos n) e loc_Exact = finite_or_inf s t (e + 2).
Proof.
  intros Hshift Hrne Hkeep. unfold binary_round_aux, shr_fexp.
  cbn [Zdigits2 shr_record_of_loc]. rewrite Hshift. cbn [shr SpecFloat.iter_pos].
  rewrite shr_1_nonneg by lia.
  rewrite shr_1_nonneg by (apply Z.div_pos; lia). cbn [shr_m orb].
  assert (Hq : Z.pos n / 2 / 2 = Z.pos n / 4) by (Z.div_mod_to_equations; lia).
  rewrite Hq.
  assert (Hr : round_nearest_even (Z.pos n / 4)
                 (loc_of_shr_record
                    {| shr_m := Z.pos n / 4;
                       shr_r := negb (Z.pos n / 2 mod 2 =? 0);
                       shr_s := negb (Z.pos n mod 2 =? 0) || false |}) = Z.pos t).
  { rewrite <- Hrne. unfold rne2.
    destruct (Z.eqb_spec (Z.pos n / 2 mod 2) 0), (Z.eqb_spec (Z.pos n mod 2) 0),
      (Z.ltb_spec (Z.pos n mod 4) 2), (Z.eqb_spec (Z.pos n mod 4) 2);
      cbn; try reflexivity; exfalso; Z.div_mod_to_equations; lia. }
  rewrite Hr. now apply round_tail.
Qed.

Lemma binary_round_aligned s n e :
  e <= fexp (Z.pos (digits2_pos n) + e) ->
  binary_round prec emax s n e = round_aux s (Z.pos n) e loc_Exact.
Proof.
  intros He. unfold binary_round, shl_align.
  destruct (fexp (Z.pos (digits2_pos n) + e) - e) as [| k | k] eqn:Hk;
    [reflexivity | reflexivity | lia].
Qed.

(** The sum of two finite numbers of one sign, the exponent of the
    first above the one of the second by 0, 1 or 2. *)
Lemma add_aligned0 s a b e :
  add (S754_finite s a e) (S754_finite s b e) =
  binary_round prec emax s (a + b) e.
Proof.
  unfold add, SFadd, shl_align. rewrite Z.min_id, Z.sub_diag. cbn [fst].
  now destruct s.
Qed.

Lemma add_aligned1 s a b e :
  add (S754_finite s a (e + 1)) (S754_finite s b e) =
  binary_round prec emax s (a~0 + b) e.
Proof.
  unfold add, SFadd, shl_align. rewrite Z.min_r by lia.
  replace (e - (e + 1)) with (-1) by lia. rewrite Z.sub_diag. cbn [fst Pos.iter].
  now destruct s.
Qed.

Lemma add_aligned2 s a b e :
  add (S754_finite s a (e + 2)) (S754_finite s b e) =
  binary_round prec emax s (a~0~0 + b) e.
Proof.
  unfold add, SFadd, shl_align. rewrite Z.min_r by lia.
  replace (e - (e + 2)) with (-2) by lia. rewrite Z.sub_diag. cbn [fst Pos.iter].
  now destruct s.
Qed.


(** *** Rounding a sum at the exponent [e] *)

Lemma round_24 s n e :
  e = -149 -> Z.pos n < 2 ^ 24 ->
  binary_round prec emax s n e = S754_finite s n e.
Proof.
  intros -> Hn. pose proof (digits2_pos_le n 24 ltac:(lia) Hn) as Hd.
  rewrite binary_round_aligned, round_exact by (rewrite fexp_eq; lia).
  reflexivity.
Qed.

Lemma round_25 s n e t :
  -149 <= e -> 2 ^ 24 <= Z.pos n < 2 ^ 25 ->
  rne1 (Z.pos n) = Z.pos t -> Z.pos t < 2 ^ 24 ->
  binary_round prec emax s n e = finite_or_inf s t (e + 1).
Proof.
  intros He Hn Hrne Ht.
  pose proof (digits2_pos_unique n 25 Hn) as Hd.
  pose proof (digits2_pos_le t 24 ltac:(lia) Ht) as Hdt.
  rewrite binary_round_aligned by (rewrite fexp_eq; lia).
  apply round_shift1; [| assumption |]; rewrite fexp_eq; lia.
Qed.

Lemma round_26 s n e t :
  -149 <= e -> 2 ^ 25 <= Z.pos n < 2 ^ 26 ->
  rne2 (Z.pos n) = Z.pos t -> Z.pos t < 2 ^ 24 ->
  binary_round prec emax s n e = finite_or_inf s t (e + 2).
Proof.
  intros He Hn Hrne Ht.
  pose proof (digits2_pos_unique n 26 Hn) as Hd.
  pose proof (digits2_pos_le t 24 ltac:(lia) Ht) as Hdt.
  rewrite binary_round_aligned by (rewrite fexp_eq; lia).
  apply round_shift2; [| assumption |]; rewrite fexp_eq; lia.
Qed.

Lemma finite_or_inf_finite s m e :
  e <= 104 -> finite_or_inf s m e = S754_finite s m e.
Proof. intros He. unfold finite_or_inf. now destruct (Z.leb_spec e 104); [| lia]. Qed.

(** *** Arithmetic of the two roundings *)

Lemma even_cases q :
  (Z.even q = true /\ exists k, q = 2 * k) \/
  (Z.even q = false /\ exists k, q = 2 * k + 1).
Proof.
  destruct (Z.even q) eqn:E.
  - left. split; [reflexivity |]. now apply Z.even_spec.
  - right. split; [reflexivity |]. apply Z.odd_spec.
    now rewrite <- Z.negb_even, E.
Qed.

Ltac rne_cases :=
  unfold rne1, rne2;
  repeat match goal with
         | |- context [Z.even ?q] =>
             let k := fresh "k" in
             destruct (even_cases q) as [[-> [k ?]] | [-> [k ?]]]
         | |- context [Z.eqb ?a ?b] => destruct (Z.eqb_spec a b)
         | |- context [Z.ltb ?a ?b] => destruct (Z.ltb_spec a b)
         end;
  Z.div_mod_to_equations; lia.

Lemma rne1_double M : rne1 (2 * M) = M.
Proof. rne_cases. Qed.

Lemma rne1_bounds N : 2 ^ 24 <= N < 3 * 2 ^ 23 -> 2 ^ 23 <= rne1 N < 2 ^ 24.
Proof. intros HN. rne_cases. Qed.

Lemma rne1_bounds' N : 2 ^ 24 <= N < 2 ^ 25 -> N <> 2 ^ 25 - 1 -> 2 ^ 23 <= rne1 N < 2 ^ 24.
Proof. intros HN Hne. rne_cases. Qed.

Lemma rne2_bounds N : 2 ^ 25 <= N < 3 * 2 ^ 24 -> 2 ^ 23 <= rne2 N < 2 ^ 24.
Proof. intros HN. rne_cases. Qed.


Lemma rne1_spec N :
  2 * rne1 N = N \/ 2 * rne1 N = N + 1 \/ 2 * rne1 N = N - 1.
Proof. rne_cases. Qed.

Lemma rne2_spec N :
  -1 <= 4 * rne2 N - N <= 1 \/
  ((4 * rne2 N - N = 2 \/ 4 * rne2 N - N = -2) /\ exists k, rne2 N = 2 * k).
Proof.
  unfold rne2. destruct (Z.ltb_spec (N mod 4) 2); [left; Z.div_mod_to_equations; lia |].
  destruct (Z.eqb_spec (N mod 4) 2); [| left; Z.div_mod_to_equations; lia].
  right. destruct (even_cases (N / 4)) as [[-> [k Hk]] | [-> [k Hk]]].
  - split; [Z.div_mod_to_equations; lia | now exists k].
  - split; [Z.div_mod_to_equations; lia | exists (k + 1); lia].
Qed.

Lemma rne2_near M d : -1 <= d <= 1 -> rne2 (4 * M + d) = M.
Proof. intros Hd. rne_cases. Qed.

Lemma rne2_tie M d : d = 2 \/ d = -2 -> M mod 2 = 0 -> rne2 (4 * M + d) = M.
Proof. intros Hd HM. rne_cases. Qed.

Lemma rne1_near M d : -1 <= d <= 1 -> rne1 (4 * M + d) = 2 * M.
Proof. intros Hd. rne_cases. Qed.

(** *** A number added to itself four times *)

Lemma add4_normal s m e :
  2 ^ 23 <= Z.pos m < 2 ^ 24 -> -149 <= e <= 102 ->
  add4 (S754_finite s m e) = S754_finite s m (e + 2).
Proof.
  intros Hm He. unfold add4.
  (* c + c *)
  rewrite add_aligned0, (round_25 s (m + m) e m), finite_or_inf_finite;
    [| lia | lia | lia | | lia].
  2:{ replace (Z.pos (m + m)) with (2 * Z.pos m) by lia. apply rne1_double. }
  (* 2c + c *)
  rewrite add_aligned1.
  assert (H3 : Z.pos (m~0 + m) = 3 * Z.pos m) by lia.
  destruct (Z.lt_ge_cases (3 * Z.pos m) (2 ^ 25)) as [Hlt | Hge].
  - pose proof (rne1_bounds' (3 * Z.pos m) ltac:(lia) ltac:(lia)) as HT.
    pose proof (rne1_spec (3 * Z.pos m)) as Hspec.
    set (T := rne1 (3 * Z.pos m)) in *.
    rewrite (round_25 s (m~0 + m) e (Z.to_pos T)), finite_or_inf_finite;
      [| lia | lia | lia | rewrite H3, Z2Pos.id by lia; reflexivity
       | rewrite Z2Pos.id by lia; lia].
    (* 3c + c *)
    rewrite add_aligned1.
    assert (H4 : Z.pos ((Z.to_pos T)~0 + m) = 4 * Z.pos m + (2 * T - 3 * Z.pos m)).
    { rewrite Pos2Z.inj_add, (Pos2Z.inj_xO (Z.to_pos T)), Z2Pos.id by lia. lia. }
    rewrite (round_26 s ((Z.to_pos T)~0 + m) e m); [| lia | lia | | lia].
    + apply finite_or_inf_finite. lia.
    + rewrite H4. apply rne2_near. lia.
  - pose proof (rne2_bounds (3 * Z.pos m) ltac:(lia)) as HT.
    pose proof (rne2_spec (3 * Z.pos m)) as Hspec.
    set (T := rne2 (3 * Z.pos m)) in *.
    rewrite (round_26 s (m~0 + m) e (Z.to_pos T)), finite_or_inf_finite;
      [| lia | lia | lia | rewrite H3, Z2Pos.id by lia; reflexivity
       | rewrite Z2Pos.id by lia; lia].
    rewrite add_aligned2.
    assert (H4 : Z.pos ((Z.to_pos T)~0~0 + m) = 4 * Z.pos m + (4 * T - 3 * Z.pos m)).
    { rewrite Pos2Z.inj_add, (Pos2Z.inj_xO (Z.to_pos T)~0),
        (Pos2Z.inj_xO (Z.to_pos T)), Z2Pos.id by lia. lia. }
    rewrite (round_26 s ((Z.to_pos T)~0~0 + m) e m); [| lia | lia | | lia].
    + apply finite_or_inf_finite. lia.
    + rewrite H4. destruct Hspec as [Hnear | [Htie [k Hk]]].
      * apply rne2_near. lia.
      * apply rne2_tie; [lia |]. Z.div_mod_to_equations. lia.
Qed.


Lemma add4_subnormal s m e :
  e = -149 -> Z.pos m < 2 ^ 23 ->
  add4 (S754_finite s m e) =
  if Z.pos m <? 2 ^ 22 then S754_finite s m~0~0 e else S754_finite s m~0 (e + 1).
Proof.
  intros He Hm. unfold add4.
  rewrite add_aligned0, round_24 by lia.
  rewrite add_aligned0.
  destruct (Z.lt_ge_cases (3 * Z.pos m) (2 ^ 24)) as [Hlt | Hge].
  - rewrite round_24 by lia. rewrite add_aligned0.
    destruct (Z.ltb_spec (Z.pos m) (2 ^ 22)).
    + rewrite round_24 by lia. f_equal. lia.
    + rewrite (round_25 s (m + m + m + m) e m~0), finite_or_inf_finite;
        [reflexivity | lia | lia | lia | | lia].
      replace (Z.pos (m + m + m + m)) with (2 * Z.pos m~0) by lia.
      apply rne1_double.
  - pose proof (rne1_bounds (3 * Z.pos m) ltac:(lia)) as HT.
    pose proof (rne1_spec (3 * Z.pos m)) as Hspec.
    set (T := rne1 (3 * Z.pos m)) in *.
    rewrite (round_25 s (m + m + m) e (Z.to_pos T)), finite_or_inf_finite;
      [| lia | lia | lia
       | replace (Z.pos (m + m + m)) with (3 * Z.pos m) by lia;
         rewrite Z2Pos.id by lia; reflexivity
       | rewrite Z2Pos.id by lia; lia].
    rewrite add_aligned1.
    assert (H4 : Z.pos ((Z.to_pos T)~0 + m) = 4 * Z.pos m + (2 * T - 3 * Z.pos m)).
    { rewrite Pos2Z.inj_add, (Pos2Z.inj_xO (Z.to_pos T)), Z2Pos.id by lia. lia. }
    destruct (Z.ltb_spec (Z.pos m) (2 ^ 22)); [lia |].
    rewrite (round_25 s ((Z.to_pos T)~0 + m) e m~0), finite_or_inf_finite;
      [reflexivity | lia | lia | lia | | lia].
    rewrite H4, (Pos2Z.inj_xO m). apply rne1_near. lia.
Qed.

(** *** Multiplication by four *)

Lemma of_int_4 : of_int 4 = S754_finite false 8388608 (-21).
Proof. reflexivity. Qed.

Lemma mul_pow2_23 m :
  (8388608 * m = Pos.iter xO m 23)%positive.
Proof. reflexivity. Qed.

Lemma digits2_pos_shifted m :
  Z.pos (digits2_pos (8388608 * m)) = Z.pos (digits2_pos m) + 23.
Proof.
rewrite mul_pow2_23. cbn [Pos.iter digits2_pos]. rewrite !Pos2Z.inj_succ. lia.
Qed.

Lemma mul4_shift23 s m e :
  Z.pos (digits2_pos m) = 24 -> -149 <= e ->
  mul (of_int 4) (S754_finite s m e) = finite_or_inf s m (e + 2).
Proof.
  intros Hd He. rewrite of_int_4. unfold mul, SFmul, binary_round_aux, shr_fexp.
  cbn [xorb Zdigits2 shr_record_of_loc]. rewrite digits2_pos_shifted, Hd.
  replace (fexp (24 + 23 + (-21 + e)) - (-21 + e)) with 23
    by (rewrite fexp_eq; lia).
  rewrite mul_pow2_23.
  cbn [Pos.iter shr SpecFloat.iter_pos shr_1 orb shr_m loc_of_shr_record
       round_nearest_even].
  replace (e + 2) with (-21 + e + 23) by lia.
  apply round_tail. rewrite Hd, fexp_eq. lia.
Qed.

Lemma mul4_shift22 s m e :
  Z.pos (digits2_pos m) = 23 -> e = -149 ->
  mul (of_int 4) (S754_finite s m e) = S754_finite s m~0 (e + 1).
Proof.
  intros Hd He. rewrite of_int_4. unfold mul, SFmul, binary_round_aux, shr_fexp.
  cbn [xorb Zdigits2 shr_record_of_loc]. rewrite digits2_pos_shifted, Hd.
  replace (fexp (23 + 23 + (-21 + e)) - (-21 + e)) with 22
    by (rewrite fexp_eq; lia).
  rewrite mul_pow2_23.
  cbn [Pos.iter shr SpecFloat.iter_pos shr_1 orb shr_m loc_of_shr_record
       round_nearest_even].
  transitivity (finite_or_inf s m~0 (-21 + e + 22)).
  - apply round_tail. cbn [digits2_pos]. rewrite Pos2Z.inj_succ, Hd, fexp_eq. lia.
  - rewrite finite_or_inf_finite by lia. f_equal. lia.
Qed.

Lemma mul4_shift21 s m e :
  Z.pos (digits2_pos m) <= 22 -> e = -149 ->
  mul (of_int 4) (S754_finite s m e) = S754_finite s m~0~0 e.
Proof.
  intros Hd He. rewrite of_int_4. unfold mul, SFmul, binary_round_aux, shr_fexp.
  cbn [xorb Zdigits2 shr_record_of_loc]. rewrite digits2_pos_shifted.
  replace (fexp (Z.pos (digits2_pos m) + 23 + (-21 + e)) - (-21 + e)) with 21
    by (rewrite fexp_eq; lia).
  rewrite mul_pow2_23.
  cbn [Pos.iter shr SpecFloat.iter_pos shr_1 orb shr_m loc_of_shr_record
       round_nearest_even].
  transitivity (finite_or_inf s m~0~0 (-21 + e + 21)).
  - apply round_tail. cbn [digits2_pos]. rewrite !Pos2Z.inj_succ, fexp_eq. lia.
  - rewrite finite_or_inf_finite by lia. f_equal. lia.
Qed.


(** *** Valid numbers *)

Lemma valid_cases s m e :
  valid (S754_finite s m e) = true ->
  -149 <= e <= 104 /\
  (2 ^ 23 <= Z.pos m < 2 ^ 24 \/ (e = -149 /\ Z.pos m < 2 ^ 23)).
Proof.
  unfold valid, valid_binary, bounded, canonical_mantissa.
  intros [Hcanon Hmax%Z.leb_le]%andb_true_iff. apply Z.eqb_eq in Hcanon.
  rewrite fexp_eq in Hcanon. change (emax - prec) with 104 in Hmax.
  pose proof (digits2_pos_bounds m) as Hb.
  destruct (Z.eq_dec (Z.pos (digits2_pos m)) 24) as [Hd | Hd].
  - rewrite Hd in Hb. change (24 - 1) with 23 in Hb. lia.
  - assert (Hd' : Z.pos (digits2_pos m) <= 23) by lia.
    assert (2 ^ Z.pos (digits2_pos m) <= 2 ^ 23) by (apply Z.pow_le_mono_r; lia).
    lia.
Qed.

(** Adding a number to itself four times is multiplying it by four,
    as long as the product is finite. *)
Lemma add4_mul4 c :
  valid c = true -> is_finite (mul (of_int 4) c) = true ->
  add4 c = mul (of_int 4) c.
Proof.
  intros Hvalid Hfin. destruct c as [s | s | | s m e].
  - now destruct s.
  - discriminate.
  - discriminate.
  - destruct (valid_cases s m e Hvalid) as [He [Hm | [He' Hm]]].
    + rewrite (mul4_shift23 s m e) in Hfin |- *
        by (try apply digits2_pos_unique; change (24 - 1) with 23; lia).
      unfold finite_or_inf in Hfin |- *.
      destruct (Z.leb_spec (e + 2) 104); [| discriminate].
      apply add4_normal; lia.
    + rewrite add4_subnormal by assumption.
      destruct (Z.ltb_spec (Z.pos m) (2 ^ 22)).
      * symmetry. apply mul4_shift21; [| assumption].
        apply digits2_pos_le; lia.
      * symmetry. apply mul4_shift22; [| assumption].
        apply digits2_pos_unique. change (23 - 1) with 22. lia.
Qed.

Lemma sub_self x : is_finite x = true -> sub x x = zero.
Proof.
  destruct x as [s | s | | s m e]; try discriminate; intros _.
  - now destruct s.
  - unfold sub, SFsub, shl_align. rewrite Z.min_id, Z.sub_diag. cbn [fst].
    replace (cond_Zopp s (Z.pos m) - cond_Zopp s (Z.pos m)) with 0 by lia.
    reflexivity.
Qed.

Lemma eq_refl_finite x : is_finite x = true -> eq x x = true.
Proof.
  destruct x as [s | s | | s m e]; try discriminate; intros _; [reflexivity |].
  unfold eq, SFeqb, SFcompare.
  rewrite Z.compare_refl, Pos.compare_cont_refl. now destruct s.
Qed.

End F32Facts.

(** The value that the stencil computes in a uniform neighbourhood. *)
Lemma next_val_uniform c :
  F32.valid c = true -> F32.is_finite (F32.mul (F32.of_int 4) c) = true ->
  next_val c c c c c = match c with S754_zero _ => F32.zero | _ => c end.
Proof.
  intros Hvalid Hfin. unfold next_val.
  change (F32.add (F32.add (F32.add c c) c) c) with (add4 c).
  rewrite (F32Facts.add4_mul4 c Hvalid Hfin), (F32Facts.sub_self _ Hfin).
  change (F32.mul SPEED F32.zero) with F32.zero.
  destruct c as [[] | | |]; reflexivity.
Qed.

(** ** A uniform neighbourhood *)

(** C7, as stated, fails: on a grid whose cells all hold +infinity the
    interior cell (1, 1) equals its four neighbours, and the sub-step
    writes a NaN, which equals nothing. *)
Lemma uniform_infinity_counterexample :
  ~ (forall m x y c,
       sized 16 m -> 0 < x < 16 - 1 -> 0 < y < 16 - 1 ->
       let idx := x + y * 16 in
       array_get (load m device_input) idx = Some c ->
       array_get (load m device_input) (idx - 1) = Some c ->
       array_get (load m device_input) (idx + 1) = Some c ->
       array_get (load m device_input) (idx - 16) = Some c ->
       array_get (load m device_input) (idx + 16) = Some c ->
       exists m' c',
         launch (blocks_per_grid 16) threads_per_block
           (temperature_update 16 device_output true) m = Some m' /\
         array_get (load m' device_output) idx = Some c' /\
         F32.eq c' c = true).
Proof.
  intros H.
  destruct (H (uniform 256 F32.infinity) 1 1 F32.infinity)
    as (m' & c' & Hrun & Hget & Heq);
    try reflexivity; try lia; try (intros []; reflexivity).
  vm_compute in Hrun. injection Hrun as <-.
  vm_compute in Hget. injection Hget as <-.
  vm_compute in Heq. discriminate.
Qed.

(** C7, amended: for every interior cell whose value [c] equals the
    values of its four neighbours in the input buffer, [c] being a
    finite binary32 number whose quadruple [4 * c] is finite too, the
    stencil sub-step writes a value equal to [c]: [c] itself, or +0
    when [c] is -0. *)
Theorem uniform_neighbourhood_unchanged dim flag_IO m x y c :
  grid_ok dim -> sized dim m -> 0 < x < dim - 1 -> 0 < y < dim - 1 ->
  let input_ptr := fst (select_ptrs flag_IO) in
  let output_ptr := snd (select_ptrs flag_IO) in
  let idx := x + y * dim in
  array_get (load m input_ptr) idx = Some c ->
  array_get (load m input_ptr) (idx - 1) = Some c ->
  array_get (load m input_ptr) (idx + 1) = Some c ->
  array_get (load m input_ptr) (idx - dim) = Some c ->
  array_get (load m input_ptr) (idx + dim) = Some c ->
  F32.valid c = true ->
  F32.is_finite (F32.mul (F32.of_int 4) c) = true ->
  exists m' c',
    launch (blocks_per_grid dim) threads_per_block
      (temperature_update dim output_ptr flag_IO) m = Some m' /\
    array_get (load m' output_ptr) idx = Some c' /\
    F32.eq c' c = true /\
    (c <> S754_zero true -> c' = c).
Proof.
  intros Hdim Hm Hx Hy input_ptr output_ptr idx Hc Hl Hr Hu Hd Hvalid Hfin.
  subst idx.
  destruct (temperature_update_pass dim Hdim m Hm flag_IO)
    as (m' & Hrun & Hsized & _ & Hcells).
  fold input_ptr output_ptr in Hrun, Hcells.
  assert (Hsq : dim * dim <= 2 ^ 31) by apply Hdim.
  pose proof (idx_range dim Hsq x y ltac:(lia) ltac:(lia)) as Hidx.
  exists m', (next_val c c c c c). split; [exact Hrun |]. split.
  - rewrite array_get_Some by (rewrite Hsized; exact Hidx). f_equal.
    rewrite Hcells by lia. unfold stencil.
    rewrite left_idx_eq, right_idx_eq, upper_idx_eq, lower_idx_eq by lia.
    destruct (Z.eqb_spec x 0); [lia |]. destruct (Z.eqb_spec x (dim - 1)); [lia |].
    destruct (Z.eqb_spec y 0); [lia |]. destruct (Z.eqb_spec y (dim - 1)); [lia |].
    apply array_get_inv in Hc as [_ ->]. apply array_get_inv in Hl as [_ ->].
    apply array_get_inv in Hr as [_ ->]. apply array_get_inv in Hu as [_ ->].
    apply array_get_inv in Hd as [_ ->]. reflexivity.
  - rewrite (next_val_uniform c Hvalid Hfin).
    destruct c as [s | s | | s m0 e].
    + split; [now destruct s | destruct s; [congruence | reflexivity]].
    + vm_compute in Hfin. discriminate.
    + vm_compute in Hfin. discriminate.
    + split; [| reflexivity].
      apply (F32Facts.eq_refl_finite (S754_finite s m0 e)). reflexivity.
Qed.

Lemma uniform_neighbourhood_unchanged_witness :
  exists m' c',
    launch (blocks_per_grid 16) threads_per_block
      (temperature_update 16 device_output true)
      (uniform 256 MAX_TEMPERATURE) = Some m' /\
    array_get (load m' device_output) (1 + 1 * 16) = Some c' /\
    F32.eq c' MAX_TEMPERATURE = true /\
    (MAX_TEMPERATURE <> S754_zero true -> c' = MAX_TEMPERATURE).
Proof.
  apply (uniform_neighbourhood_unchanged 16 true (uniform 256 MAX_TEMPERATURE)
           1 1 MAX_TEMPERATURE);
    try reflexivity; try lia; on_grid_16.
Defined.

(** * Further properties of the kernels and of the frame *)

(** ** One thread per cell *)

Lemma threads_NoDup grid block : NoDup (threads grid block).
Proof.
  unfold threads.
  apply NoDup_bind; [| | apply NoDup_seqZ].
  { intros b1 b2 t _ _ H1 H2.
    apply list_elem_of_bind in H1 as (? & H1 & _).
    apply list_elem_of_bind in H1 as (? & H1 & _).
    apply list_elem_of_bind in H1 as (? & ->%list_elem_of_singleton & _).
    apply list_elem_of_bind in H2 as (? & H2 & _).
    apply list_elem_of_bind in H2 as (? & H2 & _).
    apply list_elem_of_bind in H2 as (? & H2%list_elem_of_singleton & _).
    congruence. }
  intros b_y _. apply NoDup_bind; [| | apply NoDup_seqZ].
  { intros b1 b2 t _ _ H1 H2.
    apply list_elem_of_bind in H1 as (? & H1 & _).
    apply list_elem_of_bind in H1 as (? & ->%list_elem_of_singleton & _).
    apply list_elem_of_bind in H2 as (? & H2 & _).
    apply list_elem_of_bind in H2 as (? & H2%list_elem_of_singleton & _).
    congruence. }
  intros b_x _. apply NoDup_bind; [| | apply NoDup_seqZ].
  { intros b1 b2 t _ _ H1 H2.
    apply list_elem_of_bind in H1 as (? & ->%list_elem_of_singleton & _).
    apply list_elem_of_bind in H2 as (? & H2%list_elem_of_singleton & _).
    congruence. }
  intros t_y _. apply NoDup_bind; [| | apply NoDup_seqZ].
  { intros b1 b2 t _ _ ->%list_elem_of_singleton H2%list_elem_of_singleton.
    congruence. }
  intros t_x _. apply NoDup_singleton.
Qed.

Lemma thread_idx_inj dim t1 t2 :
  grid_ok dim ->
  t1 ∈ threads (blocks_per_grid dim) threads_per_block ->
  t2 ∈ threads (blocks_per_grid dim) threads_per_block ->
  thread_idx t1 = thread_idx t2 -> t1 = t2.
Proof.
  intros Hdim H1 H2 Hidx.
  destruct (thread_coords dim Hdim t1 H1) as (Hx1 & Hy1 & Hi1).
  destruct (thread_coords dim Hdim t2 H2) as (Hx2 & Hy2 & Hi2).
  rewrite Hi1, Hi2 in Hidx.
  destruct (cell_of_coords dim (thread_x t1) (thread_y t1) Hx1) as [Hm1 Hd1].
  destruct (cell_of_coords dim (thread_x t2) (thread_y t2) Hx2) as [Hm2 Hd2].
  rewrite Hidx in Hm1, Hd1.
  assert (Hx : thread_x t1 = thread_x t2) by congruence.
  assert (Hy : thread_y t1 = thread_y t2) by congruence.
  destruct (dim_tiles dim Hdim) as [Htile Hlt].
  apply elem_of_threads in H1 as (bx1 & by1 & tx1 & ty1 & ? & ? & ? & ? & ->).
  apply elem_of_threads in H2 as (bx2 & by2 & tx2 & ty2 & ? & ? & ? & ? & ->).
  unfold thread_x, thread_y in Hx, Hy. cbn in *.
  rewrite !IntFacts.wrap_small in Hx, Hy by lia.
  assert (tx1 = tx2 /\ bx1 = bx2 /\ ty1 = ty2 /\ by1 = by2) as (-> & -> & -> & ->) by lia.
  reflexivity.
Qed.

(** X1: the launch of [animate_display] has exactly one thread per
    cell: the cell indices of its threads are the indices 0 ..
    dim * dim - 1, each once. No two threads write the same cell. *)
Theorem one_thread_per_cell dim :
  grid_ok dim ->
  thread_idx <$> threads (blocks_per_grid dim) threads_per_block
  ≡ₚ seqZ 0 (dim * dim).
Proof.
  intros Hdim. apply NoDup_Permutation.
  - apply NoDup_fmap_2_strong; [| apply threads_NoDup].
    intros t1 t2 H1 H2. now apply (thread_idx_inj dim).
  - apply NoDup_seqZ.
  - intros i. rewrite list_elem_of_fmap, elem_of_seqZ. split.
    + intros (t & -> & Ht). pose proof (thread_idx_range dim Hdim t Ht). lia.
    + intros Hi. destruct (thread_of_index dim Hdim i ltac:(lia)) as (t & Ht & _ & _ & <-).
      now exists t.
Qed.

Lemma one_thread_per_cell_witness :
  thread_idx <$> threads (blocks_per_grid 16) threads_per_block
  ≡ₚ seqZ 0 (16 * 16).
Proof. apply (one_thread_per_cell 16). on_grid_16. Defined.

(** ** The order of the threads *)

(** X2: the heater launch leaves the same memory whatever the order in
    which its threads run. *)
Theorem maintain_heaters_schedule dim p m ts :
  grid_ok dim -> sized dim m ->
  ts ≡ₚ threads (blocks_per_grid dim) threads_per_block ->
  for_each (maintain_heaters p) ts m =
  launch (blocks_per_grid dim) threads_per_block (maintain_heaters p) m.
Proof.
  intros Hdim Hm Hts. apply maintain_heaters_any_order; try assumption.
  intros t. now rewrite Hts.
Qed.

Lemma maintain_heaters_schedule_witness :
  for_each (maintain_heaters device_input)
    (reverse (threads (blocks_per_grid 16) threads_per_block))
    (uniform 256 MAX_TEMPERATURE) =
  launch (blocks_per_grid 16) threads_per_block (maintain_heaters device_input)
    (uniform 256 MAX_TEMPERATURE).
Proof.
  apply (maintain_heaters_schedule 16); [on_grid_16 | on_grid_16 |].
  apply reverse_Permutation.
Defined.

(** X3: the stencil launch, with the buffers as [animate_display] pairs
    them, leaves the same memory whatever the order in which its
    threads run. *)
Theorem temperature_update_schedule dim flag_IO m ts :
  grid_ok dim -> sized dim m ->
  ts ≡ₚ threads (blocks_per_grid dim) threads_per_block ->
  for_each (temperature_update dim (snd (select_ptrs flag_IO)) flag_IO) ts m =
  launch (blocks_per_grid dim) threads_per_block
    (temperature_update dim (snd (select_ptrs flag_IO)) flag_IO) m.
Proof.
  intros Hdim Hm Hts. apply temperature_update_any_order; try assumption.
  intros t. now rewrite Hts.
Qed.

Lemma temperature_update_schedule_witness :
  for_each (temperature_update 16 device_output true)
    (reverse (threads (blocks_per_grid 16) threads_per_block))
    (uniform 256 MAX_TEMPERATURE) =
  launch (blocks_per_grid 16) threads_per_block
    (temperature_update 16 device_output true) (uniform 256 MAX_TEMPERATURE).
Proof.
  apply (temperature_update_schedule 16 true); [on_grid_16 | on_grid_16 |].
  apply reverse_Permutation.
Defined.

(** ** What a stencil worker touches *)

(** X4: the stencil worker of a cell writes that cell of its target
    buffer and nothing else: every other cell of every buffer is as it
    was. *)
Theorem temperature_update_writes_one_cell dim p flag_IO t m :
  grid_ok dim -> sized dim m ->
  t ∈ threads (blocks_per_grid dim) threads_per_block ->
  exists m1,
    temperature_update dim p flag_IO t m = Some m1 /\
    forall q j, q <> p \/ j <> thread_idx t ->
      array_get (load m1 q) j = array_get (load m q) j.
Proof.
  intros Hdim Hm Ht.
  destruct (thread_coords dim Hdim t Ht) as (Hx & Hy & Hidx).
  pose proof (thread_idx_range dim Hdim t Ht) as Hi.
  rewrite (temperature_update_thread dim p flag_IO t m)
    by (try apply Hm; try assumption; apply Hdim).
  eexists. split; [reflexivity |]. intros q j Hqj.
  destruct (decide (q = p)) as [-> | Hne].
  - rewrite load_store_eq. apply array_get_insert_ne; [lia |].
    destruct Hqj as [Hq | Hj]; congruence.
  - now rewrite load_store_ne.
Qed.

Lemma thread_0_in_launch_16 :
  mkThread (Dim3 0 0) (Dim3 0 0) threads_per_block (blocks_per_grid 16)
  ∈ threads (blocks_per_grid 16) threads_per_block.
Proof. apply elem_of_threads. exists 0, 0, 0, 0. cbn. repeat split; lia. Qed.

Lemma temperature_update_writes_one_cell_witness :
  exists m1,
    temperature_update 16 device_output true
      (mkThread (Dim3 0 0) (Dim3 0 0) threads_per_block (blocks_per_grid 16))
      (uniform 256 MAX_TEMPERATURE) = Some m1 /\
    load m1 device_input = load (uniform 256 MAX_TEMPERATURE) device_input.
Proof.
  destruct (temperature_update_writes_one_cell 16 device_output true
              (mkThread (Dim3 0 0) (Dim3 0 0) threads_per_block (blocks_per_grid 16))
              (uniform 256 MAX_TEMPERATURE))
    as (m1 & Hrun & Hrest); [on_grid_16 | on_grid_16 | apply thread_0_in_launch_16 |].
  exists m1. split; [exact Hrun |].
  vm_compute in Hrun. injection Hrun as <-. reflexivity.
Defined.

(** X5: the stencil launch never reads its output buffer: two memories
    with the same input buffer get the same output buffer, whatever
    the output buffer held before. *)
Theorem temperature_update_ignores_output dim flag_IO m1 m2 :
  grid_ok dim -> sized dim m1 -> sized dim m2 ->
  let input_ptr := fst (select_ptrs flag_IO) in
  let output_ptr := snd (select_ptrs flag_IO) in
  load m1 input_ptr = load m2 input_ptr ->
  exists m1' m2',
    launch (blocks_per_grid dim) threads_per_block
      (temperature_update dim output_ptr flag_IO) m1 = Some m1' /\
    launch (blocks_per_grid dim) threads_per_block
      (temperature_update dim output_ptr flag_IO) m2 = Some m2' /\
    load m1' output_ptr = load m2' output_ptr.
Proof.
  intros Hdim Hm1 Hm2 input_ptr output_ptr Hin.
  destruct (temperature_update_pass dim Hdim m1 Hm1 flag_IO)
    as (m1' & Hrun1 & Hsized1 & _ & Hcells1).
  destruct (temperature_update_pass dim Hdim m2 Hm2 flag_IO)
    as (m2' & Hrun2 & Hsized2 & _ & Hcells2).
  exists m1', m2'. split; [exact Hrun1 |]. split; [exact Hrun2 |].
  apply cells_eq.
  - pose proof (Hsized1 output_ptr). pose proof (Hsized2 output_ptr). lia.
  - intros i Hi. rewrite Hsized1 in Hi.
    destruct Hdim as (Hpos & _ & _).
    pose proof (Z.div_mod i dim ltac:(lia)) as Hdm.
    pose proof (Z.mod_pos_bound i dim ltac:(lia)) as Hmod.
    assert (0 <= i / dim < dim).
    { split; [apply Z.div_pos; lia | apply Z.div_lt_upper_bound; lia]. }
    replace i with (i mod dim + i / dim * dim) by lia.
    unfold output_ptr. rewrite Hcells1, Hcells2 by lia.
    fold input_ptr. now rewrite Hin.
Qed.

Lemma temperature_update_ignores_output_witness :
  exists m1' m2',
    launch (blocks_per_grid 16) threads_per_block
      (temperature_update 16 device_output true)
      (mkMemory (replicate 256 F32.zero) (replicate 256 MAX_TEMPERATURE)
         (replicate 256 S754_nan)) = Some m1' /\
    launch (blocks_per_grid 16) threads_per_block
      (temperature_update 16 device_output true)
      (uniform 256 MAX_TEMPERATURE) = Some m2' /\
    load m1' device_output = load m2' device_output.
Proof.
  apply (temperature_update_ignores_output 16 true); try on_grid_16.
  reflexivity.
Defined.

(** ** A whole sub-step *)

Lemma select_ptrs_distinct flag_IO :
  fst (select_ptrs flag_IO) <> snd (select_ptrs flag_IO) /\
  fst (select_ptrs flag_IO) <> device_heaters /\
  snd (select_ptrs flag_IO) <> device_heaters.
Proof. now destruct flag_IO. Qed.

Lemma sub_step_cells dim flag_IO m :
  grid_ok dim -> sized dim m ->
  exists m',
    sub_step (blocks_per_grid dim) threads_per_block dim flag_IO m = Some m' /\
    sized dim m' /\
    load m' device_heaters = load m device_heaters /\
    (forall i, 0 <= i < dim * dim ->
       cell (load m' (fst (select_ptrs flag_IO))) i =
       overlay (cell (load m device_heaters) i)
         (cell (load m (fst (select_ptrs flag_IO))) i)) /\
    (forall x y, 0 <= x < dim -> 0 <= y < dim ->
       cell (load m' (snd (select_ptrs flag_IO))) (x + y * dim) =
       stencil dim (load m' (fst (select_ptrs flag_IO))) x y).
Proof.
  intros Hdim Hm. destruct (select_ptrs_distinct flag_IO) as (Hio & Hih & Hoh).
  destruct (maintain_heaters_pass dim Hdim m Hm (fst (select_ptrs flag_IO)))
    as (mh & Hrun1 & Hsized1 & Hother1 & Hcells1).
  destruct (temperature_update_pass dim Hdim mh Hsized1 flag_IO)
    as (m' & Hrun2 & Hsized2 & Hother2 & Hcells2).
  exists m'. split.
  { unfold sub_step. destruct flag_IO; cbn [select_ptrs fst snd] in *;
      rewrite Hrun1; exact Hrun2. }
  split; [exact Hsized2 |].
  split; [rewrite Hother2, Hother1 by congruence; reflexivity |].
  split.
  - intros i Hi. rewrite (Hother2 _ Hio). now apply Hcells1.
  - intros x y Hx Hy. rewrite (Hother2 _ Hio). now apply Hcells2.
Qed.

(** X6: one sub-step, from any memory: the heater map is untouched,
    every cell of the input buffer ends as its heater value when that
    value is nonzero and as it was otherwise, and every cell of the
    output buffer ends as the stencil value of the input buffer so
    stamped. *)
Theorem sub_step_stamps_then_diffuses dim flag_IO m :
  grid_ok dim -> sized dim m ->
  let input_ptr := fst (select_ptrs flag_IO) in
  let output_ptr := snd (select_ptrs flag_IO) in
  exists m',
    sub_step (blocks_per_grid dim) threads_per_block dim flag_IO m = Some m' /\
    load m' device_heaters = load m device_heaters /\
    (forall i, 0 <= i < dim * dim ->
       exists h old,
         array_get (load m device_heaters) i = Some h /\
         array_get (load m input_ptr) i = Some old /\
         array_get (load m' input_ptr) i =
         Some (if F32.neq h (F32.of_int 0) then h else old)) /\
    (forall x y, 0 <= x < dim -> 0 <= y < dim ->
       array_get (load m' output_ptr) (x + y * dim) =
       Some (stencil dim (load m' input_ptr) x y)).
Proof.
  intros Hdim Hm input_ptr output_ptr.
  destruct (sub_step_cells dim flag_IO m Hdim Hm)
    as (m' & Hrun & Hsized & Hheat & Hin & Hout).
  exists m'. split; [exact Hrun |]. split; [exact Hheat |]. split.
  - intros i Hi. do 2 eexists.
    repeat (split; [apply array_get_Some; rewrite Hm; exact Hi |]).
    rewrite array_get_Some by (rewrite Hsized; exact Hi). f_equal. now apply Hin.
  - intros x y Hx Hy. assert (Hsq : dim * dim <= 2 ^ 31) by apply Hdim.
    pose proof (idx_range dim Hsq x y Hx Hy).
    rewrite array_get_Some by (rewrite Hsized; assumption). f_equal. now apply Hout.
Qed.

Lemma sub_step_stamps_then_diffuses_witness :
  exists m',
    sub_step (blocks_per_grid 16) threads_per_block 16 false
      (uniform 256 MAX_TEMPERATURE) = Some m' /\
    load m' device_heaters = load (uniform 256 MAX_TEMPERATURE) device_heaters.
Proof.
  destruct (sub_step_stamps_then_diffuses 16 false (uniform 256 MAX_TEMPERATURE))
    as (m' & Hrun & Hheat & _); [on_grid_16 .. |].
  exists m'. split; [exact Hrun | exact Hheat].
Defined.

(** ** A whole frame *)

Lemma animate_loop_heaters dim n : forall flag_IO m,
  grid_ok dim -> sized dim m ->
  exists flag m',
    animate_loop dim n flag_IO m = Some (flag, m') /\
    sized dim m' /\
    load m' device_heaters = load m device_heaters.
Proof.
  induction n as [| n IH]; intros flag_IO m Hdim Hm.
  - exists flag_IO, m. now repeat split.
  - destruct (sub_step_cells dim flag_IO m Hdim Hm)
      as (m1 & Hstep & Hm1 & Hheat1 & _).
    destruct (IH (negb flag_IO) m1 Hdim Hm1) as (flag & m' & Hloop & Hm' & Hheat).
    exists flag, m'. split; [| split; [exact Hm' | congruence]].
    cbn [animate_loop]. rewrite Hstep. exact Hloop.
Qed.

(** X7: a frame, from any memory of the right size, completes without
    an access outside a buffer, exports the [device_input] buffer it
    leaves, keeps the size of the three buffers and leaves the heater
    map as it was. *)
Theorem frame_keeps_heaters dim m :
  grid_ok dim -> sized dim m ->
  exists m',
    animate_display dim m = Some (load m' device_input, m') /\
    sized dim m' /\
    load m' device_heaters = load m device_heaters.
Proof.
  intros Hdim Hm.
  destruct (animate_loop_heaters dim TIME_STEPS_PER_FRAME true m Hdim Hm)
    as (flag & m' & Hloop & Hm' & Hheat).
  exists m'. split; [| split; assumption].
  unfold animate_display. rewrite Hloop. reflexivity.
Qed.

Lemma frame_keeps_heaters_witness :
  exists m',
    animate_display 16 (uniform 256 MAX_TEMPERATURE) =
    Some (load m' device_input, m') /\
    sized 16 m' /\
    load m' device_heaters = load (uniform 256 MAX_TEMPERATURE) device_heaters.
Proof. apply (frame_keeps_heaters 16); on_grid_16. Defined.

(** X8: a frame never reads what [device_output] held when it started:
    two memories with the same heater map and the same [device_input]
    give the same frame, memory after the frame included. The buffer
    that [main] allocates and never fills has no influence. *)
Theorem frame_ignores_initial_output dim m1 m2 :
  grid_ok dim -> sized dim m1 -> sized dim m2 ->
  load m1 device_heaters = load m2 device_heaters ->
  load m1 device_input = load m2 device_input ->
  animate_display dim m1 = animate_display dim m2.
Proof.
  intros Hdim Hm1 Hm2 Hheat Hin.
  destruct (sub_step_cells dim true m1 Hdim Hm1)
    as (m1' & Hstep1 & Hsized1 & Hheat1 & Hin1 & Hout1).
  destruct (sub_step_cells dim true m2 Hdim Hm2)
    as (m2' & Hstep2 & Hsized2 & Hheat2 & Hin2 & Hout2).
  cbn [select_ptrs fst snd] in *.
  assert (Hinput : load m1' device_input = load m2' device_input).
  { apply cells_eq.
    - pose proof (Hsized1 device_input). pose proof (Hsized2 device_input). lia.
    - intros i Hi. rewrite Hsized1 in Hi.
      now rewrite Hin1, Hin2, Hheat, Hin. }
  assert (m1' = m2') as ->.
  { apply memory_eq. intros [].
    - congruence.
    - exact Hinput.
    - apply cells_eq.
      + pose proof (Hsized1 device_output). pose proof (Hsized2 device_output). lia.
      + intros i Hi. rewrite Hsized1 in Hi.
        destruct Hdim as (Hpos & _ & _).
        pose proof (Z.div_mod i dim ltac:(lia)) as Hdm.
        pose proof (Z.mod_pos_bound i dim ltac:(lia)) as Hmod.
        assert (0 <= i / dim < dim).
        { split; [apply Z.div_pos; lia | apply Z.div_lt_upper_bound; lia]. }
        replace i with (i mod dim + i / dim * dim) by lia.
        rewrite Hout1, Hout2 by lia. now rewrite Hinput. }
  unfold animate_display.
  change TIME_STEPS_PER_FRAME with (S (Nat.pred TIME_STEPS_PER_FRAME)).
  cbn [animate_loop]. now rewrite Hstep1, Hstep2.
Qed.

Lemma frame_ignores_initial_output_witness :
  animate_display 16
    (mkMemory (replicate 256 F32.zero) (replicate 256 MAX_TEMPERATURE)
       (replicate 256 S754_nan)) =
  animate_display 16
    (mkMemory (replicate 256 F32.zero) (replicate 256 MAX_TEMPERATURE)
       (replicate 256 F32.infinity)).
Proof.
  apply (frame_ignores_initial_output 16); try on_grid_16; reflexivity.
Defined.

(** ** The heater test *)

Lemma neq_zero_false h :
  F32.neq h (F32.of_int 0) = false <-> exists s, h = S754_zero s.
Proof.
  split.
  - destruct h as [s | [] | | [] m e]; cbn; try discriminate. intros _. now exists s.
  - intros [s ->]. reflexivity.
Qed.

(** X9: the heater test [heat_source != 0] is the comparison of floats:
    a cell whose heater value is +0 or -0 keeps its value through the
    heater pass, and a cell with any other heater value, NaN included,
    takes it. *)
Theorem maintain_heaters_zero_test dim p m :
  grid_ok dim -> sized dim m ->
  exists m',
    launch (blocks_per_grid dim) threads_per_block (maintain_heaters p) m
    = Some m' /\
    forall i h, 0 <= i < dim * dim ->
      array_get (load m device_heaters) i = Some h ->
      ((exists s, h = S754_zero s) ->
         array_get (load m' p) i = array_get (load m p) i) /\
      ((forall s, h <> S754_zero s) -> array_get (load m' p) i = Some h).
Proof.
  intros Hdim Hm.
  destruct (maintain_heaters_pass dim Hdim m Hm p)
    as (m' & Hrun & Hsized & _ & Hcells).
  exists m'. split; [exact Hrun |]. intros i h Hi Hh.
  apply array_get_inv in Hh as [_ Hh].
  rewrite !array_get_Some by (rewrite ?Hsized, ?Hm; exact Hi).
  rewrite (Hcells i Hi), Hh. unfold overlay. split.
  - intros Hz%neq_zero_false. now rewrite Hz.
  - intros Hnz. destruct (F32.neq h (F32.of_int 0)) eqn:E; [reflexivity |].
    apply neq_zero_false in E as [s ->]. now destruct (Hnz s).
Qed.

Lemma maintain_heaters_zero_test_witness :
  exists m',
    launch (blocks_per_grid 16) threads_per_block (maintain_heaters device_input)
      (mkMemory (replicate 256 S754_nan) (replicate 256 MAX_TEMPERATURE)
         (replicate 256 F32.zero)) = Some m' /\
    array_get (load m' device_input) 0 = Some S754_nan.
Proof.
  destruct (maintain_heaters_zero_test 16 device_input
              (mkMemory (replicate 256 S754_nan) (replicate 256 MAX_TEMPERATURE)
                 (replicate 256 F32.zero)))
    as (m' & Hrun & Hcells); [on_grid_16 .. |].
  exists m'. split; [exact Hrun |].
  apply (Hcells 0 S754_nan); [lia | reflexivity | discriminate].
Defined.

(** X10: with no heater (every heater value a zero) the heater pass
    changes nothing at all. *)
Theorem maintain_heaters_without_heaters dim p m :
  grid_ok dim -> sized dim m ->
  (forall i, 0 <= i < dim * dim ->
     F32.neq (cell (load m device_heaters) i) (F32.of_int 0) = false) ->
  launch (blocks_per_grid dim) threads_per_block (maintain_heaters p) m = Some m.
Proof.
  intros Hdim Hm Hzero.
  destruct (maintain_heaters_pass dim Hdim m Hm p)
    as (m' & Hrun & Hsized & Hother & Hcells).
  rewrite Hrun. f_equal. apply memory_eq. intros q.
  destruct (decide (q = p)) as [-> | Hne]; [| now apply Hother].
  apply cells_eq.
  - pose proof (Hsized p). pose proof (Hm p). lia.
  - intros i Hi. rewrite Hsized in Hi. rewrite (Hcells i Hi).
    unfold overlay. now rewrite (Hzero i Hi).
Qed.

Lemma cell_uniform n v p i :
  0 <= i < Z.of_nat n -> cell (load (uniform n v) p) i = v.
Proof.
  intros Hi. destruct p; unfold cell, array_get; cbn [load uniform heaters_buf input_buf output_buf];
    (destruct (Z.leb_spec 0 i); [| lia]); now rewrite lookup_replicate_2 by lia.
Qed.

Lemma maintain_heaters_without_heaters_witness :
  launch (blocks_per_grid 16) threads_per_block (maintain_heaters device_input)
    (uniform 256 F32.zero) = Some (uniform 256 F32.zero).
Proof.
  apply (maintain_heaters_without_heaters 16); [on_grid_16 | on_grid_16 |].
  intros i Hi. now rewrite cell_uniform by lia.
Defined.

(** ** A uniform grid *)

Lemma stencil_uniform dim a c x y :
  dim * dim <= 2 ^ 31 -> 0 <= x < dim -> 0 <= y < dim ->
  (forall i, 0 <= i < dim * dim -> cell a i = c) ->
  F32.valid c = true -> F32.is_finite (F32.mul (F32.of_int 4) c) = true ->
  c <> S754_zero true ->
  stencil dim a x y = c.
Proof.
  intros Hsq Hx Hy Hall Hvalid Hfin Hc. unfold stencil.
  rewrite !Hall
    by first [ now apply idx_range | now apply left_idx_range
             | now apply right_idx_range | now apply upper_idx_range
             | now apply lower_idx_range ].
  rewrite (next_val_uniform c Hvalid Hfin).
  destruct c as [[] | | |]; [congruence | reflexivity ..].
Qed.

(** X11: a uniform grid is a fixed point of the whole stencil launch,
    boundary cells included: when every cell of the input buffer holds
    the same finite number [c], with [4 * c] finite and [c] not -0, the
    output buffer ends equal to the input buffer. *)
Theorem uniform_grid_fixed_point dim flag_IO m c :
  grid_ok dim -> sized dim m ->
  let input_ptr := fst (select_ptrs flag_IO) in
  let output_ptr := snd (select_ptrs flag_IO) in
  (forall i, 0 <= i < dim * dim -> array_get (load m input_ptr) i = Some c) ->
  F32.valid c = true -> F32.is_finite (F32.mul (F32.of_int 4) c) = true ->
  c <> S754_zero true ->
  exists m',
    launch (blocks_per_grid dim) threads_per_block
      (temperature_update dim output_ptr flag_IO) m = Some m' /\
    load m' output_ptr = load m input_ptr.
Proof.
  intros Hdim Hm input_ptr output_ptr Hall Hvalid Hfin Hc.
  destruct (temperature_update_pass dim Hdim m Hm flag_IO)
    as (m' & Hrun & Hsized & _ & Hcells).
  exists m'. split; [exact Hrun |]. apply cells_eq.
  - pose proof (Hsized output_ptr). pose proof (Hm input_ptr). lia.
  - intros i Hi. rewrite Hsized in Hi.
    assert (Hsq : dim * dim <= 2 ^ 31) by apply Hdim.
    destruct Hdim as (Hpos & _ & _).
    pose proof (Z.div_mod i dim ltac:(lia)) as Hdm.
    pose proof (Z.mod_pos_bound i dim ltac:(lia)) as Hmod.
    assert (0 <= i / dim < dim).
    { split; [apply Z.div_pos; lia | apply Z.div_lt_upper_bound; lia]. }
    assert (Hcell : forall j, 0 <= j < dim * dim -> cell (load m input_ptr) j = c).
    { intros j Hj. now destruct (array_get_inv _ _ _ (Hall j Hj)). }
    rewrite (Hcell i Hi).
    replace i with (i mod dim + i / dim * dim) by lia.
    unfold output_ptr. rewrite Hcells by lia. now apply stencil_uniform.
Qed.

Lemma array_get_uniform n v p i :
  0 <= i < Z.of_nat n -> array_get (load (uniform n v) p) i = Some v.
Proof.
  intros Hi. rewrite array_get_Some.
  - now rewrite cell_uniform.
  - destruct p; cbn [load uniform heaters_buf input_buf output_buf];
      rewrite length_replicate; lia.
Qed.

Lemma uniform_grid_fixed_point_witness :
  exists m',
    launch (blocks_per_grid 16) threads_per_block
      (temperature_update 16 device_output true)
      (uniform 256 MAX_TEMPERATURE) = Some m' /\
    load m' device_output = load (uniform 256 MAX_TEMPERATURE) device_input.
Proof.
  apply (uniform_grid_fixed_point 16 true (uniform 256 MAX_TEMPERATURE)
           MAX_TEMPERATURE); try on_grid_16; try reflexivity; try discriminate.
  intros i Hi. apply array_get_uniform. lia.
Defined.

(** The sub-step on a uniform input buffer, with no heater. *)
Lemma sub_step_uniform dim flag_IO m c :
  grid_ok dim -> sized dim m ->
  (forall i, 0 <= i < dim * dim ->
     F32.neq (cell (load m device_heaters) i) (F32.of_int 0) = false) ->
  (forall i, 0 <= i < dim * dim -> cell (load m (fst (select_ptrs flag_IO))) i = c) ->
  F32.valid c = true -> F32.is_finite (F32.mul (F32.of_int 4) c) = true ->
  c <> S754_zero true ->
  exists m',
    sub_step (blocks_per_grid dim) threads_per_block dim flag_IO m = Some m' /\
    sized dim m' /\
    load m' device_heaters = load m device_heaters /\
    load m' (fst (select_ptrs flag_IO)) = load m (fst (select_ptrs flag_IO)) /\
    load m' (snd (select_ptrs flag_IO)) = load m (fst (select_ptrs flag_IO)).
Proof.
  intros Hdim Hm Hzero Hall Hvalid Hfin Hc.
  destruct (sub_step_cells dim flag_IO m Hdim Hm)
    as (m' & Hrun & Hsized & Hheat & Hin & Hout).
  assert (Hsame : load m' (fst (select_ptrs flag_IO)) =
                  load m (fst (select_ptrs flag_IO))).
  { apply cells_eq.
    - pose proof (Hsized (fst (select_ptrs flag_IO))).
      pose proof (Hm (fst (select_ptrs flag_IO))). lia.
    - intros i Hi. rewrite Hsized in Hi. rewrite (Hin i Hi).
      unfold overlay. now rewrite (Hzero i Hi). }
  exists m'. repeat split; try assumption.
  apply cells_eq.
  - pose proof (Hsized (snd (select_ptrs flag_IO))).
    pose proof (Hm (fst (select_ptrs flag_IO))). lia.
  - intros i Hi. rewrite Hsized in Hi.
    assert (Hsq : dim * dim <= 2 ^ 31) by apply Hdim.
    destruct Hdim as (Hpos & _ & _).
    pose proof (Z.div_mod i dim ltac:(lia)) as Hdm.
    pose proof (Z.mod_pos_bound i dim ltac:(lia)) as Hmod.
    assert (0 <= i / dim < dim).
    { split; [apply Z.div_pos; lia | apply Z.div_lt_upper_bound; lia]. }
    rewrite (Hall i Hi).
    replace i with (i mod dim + i / dim * dim) by lia.
    rewrite Hout by lia. rewrite Hsame. now apply stencil_uniform.
Qed.

Lemma animate_loop_uniform dim c L n : forall flag_IO m,
  grid_ok dim -> sized dim m ->
  (forall i, 0 <= i < dim * dim ->
     F32.neq (cell (load m device_heaters) i) (F32.of_int 0) = false) ->
  (forall i, 0 <= i < dim * dim -> cell L i = c) ->
  F32.valid c = true -> F32.is_finite (F32.mul (F32.of_int 4) c) = true ->
  c <> S754_zero true ->
  load m device_input = L -> load m device_output = L ->
  exists flag m',
    animate_loop dim n flag_IO m = Some (flag, m') /\
    load m' device_input = L /\ load m' device_output = L.
Proof.
  induction n as [| n IH]; intros flag_IO m Hdim Hm Hzero Hall Hvalid Hfin Hc Hi Ho.
  - exists flag_IO, m. now repeat split.
  - destruct (sub_step_uniform dim flag_IO m c Hdim Hm Hzero)
      as (m1 & Hstep & Hm1 & Hheat & Hin & Hout); try assumption.
    { intros i Hr. destruct flag_IO; cbn [select_ptrs fst];
        rewrite ?Hi, ?Ho; now apply Hall. }
    destruct (IH (negb flag_IO) m1) as (flag & m' & Hloop & Hi' & Ho');
      try assumption.
    + intros i Hr. rewrite Hheat. now apply Hzero.
    + destruct flag_IO; cbn [select_ptrs fst snd] in *; congruence.
    + destruct flag_IO; cbn [select_ptrs fst snd] in *; congruence.
    + exists flag, m'. split; [| now split].
      cbn [animate_loop]. rewrite Hstep. exact Hloop.
Qed.

(** X12: with no heater, a frame started on a uniform [device_input]
    (every cell the same finite [c], [4 * c] finite, [c] not -0)
    exports that same buffer, whatever [device_output] held. *)
Theorem frame_on_uniform_grid dim m c :
  grid_ok dim -> sized dim m ->
  (forall i, 0 <= i < dim * dim ->
     exists s, array_get (load m device_heaters) i = Some (S754_zero s)) ->
  (forall i, 0 <= i < dim * dim -> array_get (load m device_input) i = Some c) ->
  F32.valid c = true -> F32.is_finite (F32.mul (F32.of_int 4) c) = true ->
  c <> S754_zero true ->
  exists m', animate_display dim m = Some (load m device_input, m').
Proof.
  intros Hdim Hm Hheat Hall Hvalid Hfin Hc.
  assert (Hzero : forall i, 0 <= i < dim * dim ->
            F32.neq (cell (load m device_heaters) i) (F32.of_int 0) = false).
  { intros i Hi. destruct (Hheat i Hi) as [s Hs].
    apply array_get_inv in Hs as [_ ->]. reflexivity. }
  assert (Hcell : forall i, 0 <= i < dim * dim -> cell (load m device_input) i = c).
  { intros i Hi. now destruct (array_get_inv _ _ _ (Hall i Hi)). }
  destruct (sub_step_uniform dim true m c Hdim Hm Hzero Hcell Hvalid Hfin Hc)
    as (m1 & Hstep & Hm1 & Hheat1 & Hin1 & Hout1).
  cbn [select_ptrs fst snd] in *.
  destruct (animate_loop_uniform dim c (load m device_input)
              (Nat.pred TIME_STEPS_PER_FRAME) false m1)
    as (flag & m' & Hloop & Hi' & Ho'); try assumption.
  { intros i Hi. rewrite Hheat1. now apply Hzero. }
  exists m'. unfold animate_display.
  change TIME_STEPS_PER_FRAME with (S (Nat.pred TIME_STEPS_PER_FRAME)).
  cbn [animate_loop]. rewrite Hstep. cbn [mbind option_bind negb].
  rewrite Hloop. cbn [mbind option_bind]. now rewrite Hi'.
Qed.

Lemma frame_on_uniform_grid_witness :
  exists m',
    animate_display 16
      (mkMemory (replicate 256 F32.zero) (replicate 256 MAX_TEMPERATURE)
         (replicate 256 S754_nan)) =
    Some (replicate 256 MAX_TEMPERATURE, m').
Proof.
  apply (frame_on_uniform_grid 16
           (mkMemory (replicate 256 F32.zero) (replicate 256 MAX_TEMPERATURE)
              (replicate 256 S754_nan)) MAX_TEMPERATURE);
    try on_grid_16; try reflexivity; try discriminate.
  - intros i Hi. exists false. apply (array_get_uniform 256 F32.zero device_heaters). lia.
  - intros i Hi. apply (array_get_uniform 256 MAX_TEMPERATURE device_input). lia.
Defined.

(** ** Not-a-number *)

Lemma next_val_nan current left_val right_val upper_val lower_val :
  current = S754_nan \/ left_val = S754_nan \/ right_val = S754_nan \/
  upper_val = S754_nan \/ lower_val = S754_nan ->
  next_val current left_val right_val upper_val lower_val = S754_nan.
Proof.
  assert (Hadd_r : forall a, F32.add a S754_nan = S754_nan) by (now intros []).
  assert (Hsub_r : forall a, F32.sub a S754_nan = S754_nan) by (now intros []).
  assert (Hmul_r : forall a, F32.mul a S754_nan = S754_nan) by (now intros []).
  unfold next_val. intros [-> | [-> | [-> | [-> | ->]]]].
  - now rewrite Hmul_r, Hsub_r, Hmul_r.
  - cbn. now rewrite Hmul_r, Hadd_r.
  - rewrite Hadd_r. cbn. now rewrite Hmul_r, Hadd_r.
  - rewrite Hadd_r. cbn. now rewrite Hmul_r, Hadd_r.
  - rewrite Hadd_r. cbn. now rewrite Hmul_r, Hadd_r.
Qed.

(** X13: a NaN spreads: when the cell or one of the four neighbours it
    reads holds a NaN in the input buffer, the stencil launch writes a
    NaN in the cell. *)
Theorem nan_spreads dim flag_IO m x y :
  grid_ok dim -> sized dim m -> 0 <= x < dim -> 0 <= y < dim ->
  let input_ptr := fst (select_ptrs flag_IO) in
  let output_ptr := snd (select_ptrs flag_IO) in
  let idx := x + y * dim in
  array_get (load m input_ptr) idx = Some S754_nan \/
  array_get (load m input_ptr) (left_idx x idx) = Some S754_nan \/
  array_get (load m input_ptr) (right_idx dim x idx) = Some S754_nan \/
  array_get (load m input_ptr) (upper_idx dim y idx) = Some S754_nan \/
  array_get (load m input_ptr) (lower_idx dim y idx) = Some S754_nan ->
  exists m',
    launch (blocks_per_grid dim) threads_per_block
      (temperature_update dim output_ptr flag_IO) m = Some m' /\
    array_get (load m' output_ptr) idx = Some S754_nan.
Proof.
  intros Hdim Hm Hx Hy input_ptr output_ptr idx Hnan.
  destruct (temperature_update_pass dim Hdim m Hm flag_IO)
    as (m' & Hrun & Hsized & _ & Hcells).
  exists m'. split; [exact Hrun |].
  assert (Hsq : dim * dim <= 2 ^ 31) by apply Hdim.
  pose proof (idx_range dim Hsq x y Hx Hy).
  rewrite array_get_Some by (rewrite Hsized; assumption). f_equal.
  unfold idx, output_ptr. rewrite Hcells by assumption.
  unfold stencil. apply next_val_nan. fold idx input_ptr.
  destruct Hnan as [H1 | [H1 | [H1 | [H1 | H1]]]];
    apply array_get_inv in H1 as [_ H1]; auto 6.
Qed.

Lemma nan_spreads_witness :
  exists m',
    launch (blocks_per_grid 16) threads_per_block
      (temperature_update 16 device_output true)
      (mkMemory (replicate 256 F32.zero)
         (S754_nan :: replicate 255 MAX_TEMPERATURE)
         (replicate 256 F32.zero)) = Some m' /\
    array_get (load m' device_output) (1 + 0 * 16) = Some S754_nan.
Proof.
  apply (nan_spreads 16 true
           (mkMemory (replicate 256 F32.zero)
              (S754_nan :: replicate 255 MAX_TEMPERATURE)
              (replicate 256 F32.zero)) 1 0); try on_grid_16; try lia.
  right. left. reflexivity.
Defined.

(** ** A grid smaller than a block *)

Lemma animate_loop_no_thread dim n : forall flag_IO m,
  0 <= dim < 16 ->
  exists flag, animate_loop dim n flag_IO m = Some (flag, m).
Proof.
  induction n as [| n IH]; intros flag_IO m Hdim.
  - now exists flag_IO.
  - destruct (IH (negb flag_IO) m Hdim) as [flag Hloop].
    exists flag. cbn [animate_loop]. unfold blocks_per_grid.
    rewrite Z.quot_small by lia. unfold sub_step.
    destruct (select_ptrs flag_IO) as [input_ptr output_ptr]. exact Hloop.
Qed.

(** X14: the launch geometry is [DIM / 16] blocks each way, rounded
    down: on a grid of side below 16 no thread runs, and a frame
    leaves the memory exactly as it found it. *)
Theorem frame_on_small_grid dim m :
  0 <= dim < 16 -> animate_display dim m = Some (load m device_input, m).
Proof.
  intros Hdim. unfold animate_display.
  destruct (animate_loop_no_thread dim TIME_STEPS_PER_FRAME true m Hdim)
    as [flag ->]. reflexivity.
Qed.

Lemma frame_on_small_grid_witness :
  animate_display 4 example_4x4 = Some (load example_4x4 device_input, example_4x4).
Proof. apply (frame_on_small_grid 4). lia. Defined.

(** ** The two uploads of [main] *)

Lemma cudaMemcpy_spec m p host size m' :
  cudaMemcpy m p host size = Some m' <->
  0 <= size /\ Z.rem size 4 = 0 /\
  size ÷ 4 <= Z.of_nat (length host) /\
  size ÷ 4 <= Z.of_nat (length (load m p)) /\
  m' = store m p (take (Z.to_nat (size ÷ 4)) host
                  ++ drop (Z.to_nat (size ÷ 4)) (load m p)).
Proof.
  unfold cudaMemcpy.
  destruct (Z.leb_spec 0 size); [| split; [discriminate | lia]].
  destruct (Z.eqb_spec (Z.rem size 4) 0); [| split; [discriminate | lia]].
  destruct (Z.leb_spec (size ÷ 4) (Z.of_nat (length host)));
    [| split; [discriminate | lia]].
  destruct (Z.leb_spec (size ÷ 4) (Z.of_nat (length (load m p))));
    [| split; [discriminate | lia]].
  cbn. split.
  - intros [= <-]. now repeat split.
  - intros (_ & _ & _ & _ & ->). reflexivity.
Qed.

Lemma store_store m p a b : store (store m p a) p b = store m p b.
Proof. now destruct p. Qed.

(** Two uploads to one buffer: the second alone gives the same
    memory. *)
Lemma cudaMemcpy_twice m p g1 g2 size m1 m2 :
  cudaMemcpy m p g1 size = Some m1 ->
  cudaMemcpy m1 p g2 size = Some m2 ->
  cudaMemcpy m p g2 size = Some m2.
Proof.
  intros (Hs & Hr & Hn1 & Hp1 & ->)%cudaMemcpy_spec
         (_ & _ & Hn2 & Hp2 & ->)%cudaMemcpy_spec.
  apply cudaMemcpy_spec. repeat split; try assumption.
  rewrite load_store_eq, store_store.
  assert (0 <= size ÷ 4) by (apply Z.quot_pos; lia).
  rewrite drop_app_length' by (rewrite length_take; lia). reflexivity.
Qed.

(** X15: the first of the two uploads of [main] leaves no trace:
    whenever [main] completes, the device memory is the one it started
    from with the final host array uploaded once into the heater
    buffer; [device_input] and [device_output] are as allocated. *)
Theorem main_first_upload_overwritten dim size heaters_grid m m' :
  main dim size heaters_grid m = Some m' ->
  exists g1 g2,
    for_loop 0 (Int.mul dim dim) (heaters_body dim) heaters_grid = Some g1 /\
    heaters_second_pass dim g1 = Some g2 /\
    cudaMemcpy m device_heaters g2 size = Some m' /\
    load m' device_input = load m device_input /\
    load m' device_output = load m device_output.
Proof.
  unfold main. intros Hmain.
  destruct (for_loop 0 (Int.mul dim dim) (heaters_body dim) heaters_grid)
    as [g1 |] eqn:Hloop; [| discriminate].
  cbn [mbind option_bind] in Hmain.
  destruct (cudaMemcpy m device_heaters g1 size) as [m1 |] eqn:Hup1; [| discriminate].
  cbn [mbind option_bind] in Hmain.
  destruct (heaters_second_pass dim g1) as [g2 |] eqn:Hpass; [| discriminate].
  cbn [mbind option_bind] in Hmain.
  pose proof (cudaMemcpy_twice _ _ _ _ _ _ _ Hup1 Hmain) as Hup.
  exists g1, g2. split; [reflexivity |]. split; [exact Hpass |].
  split; [exact Hup |].
  apply cudaMemcpy_spec in Hup as (_ & _ & _ & _ & ->). now split.
Qed.

Lemma main_first_upload_overwritten_witness :
  exists g1 g2,
    for_loop 0 (Int.mul 1 1) (heaters_body 1) (replicate 1400 S754_nan) = Some g1 /\
    heaters_second_pass 1 g1 = Some g2 /\
    cudaMemcpy (uniform 1 S754_nan) device_heaters g2 4 =
    Some (mkMemory [F32.zero] [S754_nan] [S754_nan]).
Proof.
  destruct (main_first_upload_overwritten 1 4 (replicate 1400 S754_nan)
              (uniform 1 S754_nan) (mkMemory [F32.zero] [S754_nan] [S754_nan]))
    as (g1 & g2 & H1 & H2 & H3 & _).
  - vm_compute. reflexivity.
  - exists g1, g2. split; [exact H1 | split; [exact H2 | exact H3]].
Defined.

(** ** The heaters at the end of a frame *)

(** X16: the last sub-step of a frame stamps the heaters into
    [device_output] and writes [device_input] only: when the frame
    ends every cell of [device_output] with a nonzero heater value
    holds exactly that value. *)
Theorem frame_leaves_heaters_in_output dim m :
  grid_ok dim -> sized dim m ->
  exists m',
    animate_display dim m = Some (load m' device_input, m') /\
    forall i h, 0 <= i < dim * dim ->
      array_get (load m device_heaters) i = Some h ->
      F32.neq h (F32.of_int 0) = true ->
      array_get (load m' device_output) i = Some h.
Proof.
  intros Hdim Hm.
  destruct (animate_loop_runs dim Hdim (Nat.pred TIME_STEPS_PER_FRAME) true m Hm)
    as (m49 & Hloop & Hm49).
  change (if Nat.even (Nat.pred TIME_STEPS_PER_FRAME) then true else negb true)
    with false in Hloop.
  destruct (animate_loop_heaters dim (Nat.pred TIME_STEPS_PER_FRAME) true m Hdim Hm)
    as (flag & m49' & Hloop' & _ & Hheat49).
  assert (m49' = m49) as -> by congruence. clear Hloop'.
  destruct (sub_step_cells dim false m49 Hdim Hm49)
    as (m' & Hstep & Hsized & _ & Hin & _).
  cbn [select_ptrs fst snd] in Hin.
  exists m'. split.
  - unfold animate_display.
    change TIME_STEPS_PER_FRAME with (S (Nat.pred TIME_STEPS_PER_FRAME)).
    rewrite animate_loop_last, Hloop. cbn [mbind option_bind].
    rewrite Hstep. reflexivity.
  - intros i h Hi Hh Hnz. apply array_get_inv in Hh as [_ Hh].
    rewrite array_get_Some by (rewrite Hsized; exact Hi). f_equal.
    rewrite (Hin i Hi), Hheat49, Hh. unfold overlay. now rewrite Hnz.
Qed.

Lemma frame_leaves_heaters_in_output_witness :
  exists m',
    animate_display 16
      (mkMemory (replicate 256 MAX_TEMPERATURE) (replicate 256 F32.zero)
         (replicate 256 F32.zero)) = Some (load m' device_input, m') /\
    array_get (load m' device_output) 17 = Some MAX_TEMPERATURE.
Proof.
  destruct (frame_leaves_heaters_in_output 16
              (mkMemory (replicate 256 MAX_TEMPERATURE) (replicate 256 F32.zero)
                 (replicate 256 F32.zero)))
    as (m' & Hframe & Hcells); [on_grid_16 .. |].
  exists m'. split; [exact Hframe |].
  apply Hcells; [lia | reflexivity | reflexivity].
Defined.
